(** * chat-server: the chat Hub and the signaling Relay

    A shallow embedding of [internal/hub/hub.go] (the room-aware chat
    Hub) and of [video_service/internal/hub/hub.go] (the point-to-point
    signaling Relay), with the properties of the specification stated
    and settled over it.

    Both hubs are actors: one goroutine ([Run]) takes one request at a
    time from its channels and applies it.  The embedding is therefore a
    state record and one total function per request; a run is a fold over
    the list of requests in arrival order. *)

From Stdlib Require Import Ascii.
From stdpp Require Import gmap strings list fin_maps fin_sets.

Open Scope string_scope.
Open Scope list_scope.

(** ** Part I: the chat Hub, [internal/hub/hub.go] *)

Module ChatHub.

(** *** Data model *)

(** Modelled from the spec: the package [models] (Message, User, Room and
    the Room methods) is not among the sources; the records follow
    section 3 of the specification, the wire schema of section 6 and the
    field names [hub.go] uses. *)
Inductive MessageType :=
  | MessageTypeText
  | MessageTypeJoin
  | MessageTypeLeave
  | MessageTypeSystem
  | MessageTypePrivate.

Record Message := mkMessage {
  Message_ID : string;
  Message_Type : MessageType;
  Message_Content : string;
  Message_Sender : string;
  Message_SenderID : string;
  Message_Room : string;
  Message_Recipient : string;
  Message_Timestamp : Z
}.

Record User := mkUser {
  User_ID : string;
  User_Username : string;
  User_Room : string
}.

Record Room := mkRoom {
  Room_ID : string;
  Room_Name : string;
  Room_Users : gset string;
  Room_Messages : list Message
}.

(** Modelled from the spec: [models.NewRoom], a room with no member and
    an empty history. *)
Definition NewRoom (id name : string) : Room :=
  {| Room_ID := id; Room_Name := name; Room_Users := ∅; Room_Messages := [] |}.

(** Modelled from the spec: [Room.AddUser], the user id enters the member
    set. *)
Definition AddUser (uid : string) (r : Room) : Room :=
  {| Room_ID := Room_ID r; Room_Name := Room_Name r;
     Room_Users := {[uid]} ∪ Room_Users r; Room_Messages := Room_Messages r |}.

(** Modelled from the spec: [Room.RemoveUser], the user id leaves the
    member set (nothing happens when it is not there). *)
Definition RemoveUser (uid : string) (r : Room) : Room :=
  {| Room_ID := Room_ID r; Room_Name := Room_Name r;
     Room_Users := Room_Users r ∖ {[uid]}; Room_Messages := Room_Messages r |}.

(** Modelled from the spec: [Room.AddMessage], the message is appended to
    the history. *)
Definition AddMessage (m : Message) (r : Room) : Room :=
  {| Room_ID := Room_ID r; Room_Name := Room_Name r;
     Room_Users := Room_Users r; Room_Messages := Room_Messages r ++ [m] |}.

(** A [Client] interface value is a reference to an object of the
    transport layer.  The object carries the bound user, the room pointer
    behind [GetRoomID]/[SetRoomID], and the messages handed to
    [SendMessage], oldest first (the in-memory recorder of the
    specification's section 9). *)
Definition Client := nat.

Record ClientObj := mkClientObj {
  cl_user : User;
  cl_roomID : string;
  cl_sent : list Message
}.

Global Instance ClientObj_inhabited : Inhabited ClientObj :=
  populate {| cl_user := mkUser "" "" ""; cl_roomID := ""; cl_sent := [] |}.

(** The Hub: the three tables of the Go struct, and the store of the
    client objects its interface values point to.  The request channels
    and the mutex are the actor plumbing and are not state of the model. *)
Record Hub := mkHub {
  clients : gset Client;
  userClients : gmap string Client;
  rooms : gmap string Room;
  heap : gmap Client ClientObj
}.

Record PrivateMessage := mkPrivateMessage {
  PM_UserID : string;
  PM_Message : Message
}.

Record RoomOperation := mkRoomOperation {
  Op_Client : Client;
  Op_RoomID : string
}.

(** What [uuid.New().String()] and [time.Now()] return at one message
    construction; the environment chooses them. *)
Record Stamp := mkStamp {
  stamp_uuid : string;
  stamp_now : Z
}.

(** *** The Client interface *)

Definition GetUser (h : Hub) (c : Client) : User := cl_user (heap h !!! c).
Definition GetRoomID (h : Hub) (c : Client) : string := cl_roomID (heap h !!! c).
Definition sent (h : Hub) (c : Client) : list Message := cl_sent (heap h !!! c).

Definition with_heap (hp : gmap Client ClientObj) (h : Hub) : Hub :=
  {| clients := clients h; userClients := userClients h; rooms := rooms h;
     heap := hp |}.

Definition with_rooms (rs : gmap string Room) (h : Hub) : Hub :=
  {| clients := clients h; userClients := userClients h; rooms := rs;
     heap := heap h |}.

Definition SendMessage (c : Client) (m : Message) (h : Hub) : Hub :=
  let o := heap h !!! c in
  with_heap (<[c := {| cl_user := cl_user o; cl_roomID := cl_roomID o;
                       cl_sent := cl_sent o ++ [m] |}]> (heap h)) h.

Definition SetRoomID (c : Client) (roomID : string) (h : Hub) : Hub :=
  let o := heap h !!! c in
  with_heap (<[c := {| cl_user := cl_user o; cl_roomID := roomID;
                       cl_sent := cl_sent o |}]> (heap h)) h.

(** [user.Room = roomID] on the user record of client [c]. *)
Definition SetUserRoom (c : Client) (roomID : string) (h : Hub) : Hub :=
  let o := heap h !!! c in
  let u := cl_user o in
  with_heap (<[c := {| cl_user := mkUser (User_ID u) (User_Username u) roomID;
                       cl_roomID := cl_roomID o;
                       cl_sent := cl_sent o |}]> (heap h)) h.

(** *** The Hub *)

Definition NewHub : Hub :=
  {| clients := ∅; userClients := ∅; rooms := ∅; heap := ∅ |}.

Definition systemMessage (s : Stamp) (ty : MessageType) (content room : string)
  : Message :=
  {| Message_ID := stamp_uuid s; Message_Type := ty; Message_Content := content;
     Message_Sender := "System"; Message_SenderID := "";
     Message_Room := room; Message_Recipient := "";
     Message_Timestamp := stamp_now s |}.

(** [getRoomsList]; Go ranges over the map in an order of its own, the
    model in the order of [map_to_list]. *)
Definition getRoomsList (h : Hub) : string :=
  foldl (λ acc kr, acc +:+ Room_Name kr.2 +:+ " (" +:+ Room_ID kr.2 +:+ "), ")
        "Available rooms: " (map_to_list (rooms h)).

(** One turn of the loop of [broadcastToRoom]. *)
Definition deliver (m : Message) (h : Hub) (userID : string) : Hub :=
  match userClients h !! userID with
  | Some client => SendMessage client m h
  | None => h
  end.

(** [broadcastToRoom]; the members are visited in the order of
    [elements] (Go's order is unspecified; [broadcast_order] below shows
    that the outcome is the same in every order). *)
Definition broadcastToRoom (roomID : string) (m : Message) (h : Hub) : Hub :=
  match rooms h !! roomID with
  | None => h
  | Some room => foldl (deliver m) h (elements (Room_Users room))
  end.

Definition leaveMessage (s : Stamp) (user : User) (roomID : string) : Message :=
  systemMessage s MessageTypeLeave (User_Username user +:+ " left the room") roomID.

Definition joinMessage (s : Stamp) (user : User) (roomID : string) : Message :=
  systemMessage s MessageTypeJoin (User_Username user +:+ " joined the room") roomID.

Definition welcomeMessage (s : Stamp) : Message :=
  systemMessage s MessageTypeSystem "Welcome to the chat!" "".

Definition roomsMessage (s : Stamp) (h : Hub) : Message :=
  systemMessage s MessageTypeSystem (getRoomsList h) "".

Definition registerClient (s1 s2 : Stamp) (client : Client) (h : Hub) : Hub :=
  let h1 :=
    {| clients := {[client]} ∪ clients h;
       userClients := <[User_ID (GetUser h client) := client]> (userClients h);
       rooms := rooms h; heap := heap h |} in
  let h2 := SendMessage client (welcomeMessage s1) h1 in
  SendMessage client (roomsMessage s2 h2) h2.

(** The step shared by [unregisterClient] and [handleJoinRoom]: leave the
    room the client's room pointer names, when it names one that exists. *)
Definition leaveCurrent (s : Stamp) (user : User) (roomID : string) (h : Hub)
  : Hub :=
  if decide (roomID ≠ "") then
    match rooms h !! roomID with
    | Some room =>
        broadcastToRoom roomID (leaveMessage s user roomID)
          (with_rooms (<[roomID := RemoveUser (User_ID user) room]> (rooms h)) h)
    | None => h
    end
  else h.

Definition unregisterClient (s : Stamp) (client : Client) (h : Hub) : Hub :=
  if decide (client ∈ clients h) then
    let user := GetUser h client in
    let roomID := GetRoomID h client in
    let h1 := leaveCurrent s user roomID h in
    {| clients := clients h1 ∖ {[client]};
       userClients := delete (User_ID user) (userClients h1);
       rooms := rooms h1; heap := heap h1 |}
  else h.

Definition broadcastMessage (m : Message) (h : Hub) : Hub :=
  if decide (Message_Room m ≠ "") then
    let h1 :=
      match rooms h !! Message_Room m with
      | Some room => with_rooms (<[Message_Room m := AddMessage m room]> (rooms h)) h
      | None => h
      end in
    broadcastToRoom (Message_Room m) m h1
  else h.

Definition sendPrivateMessage (pm : PrivateMessage) (h : Hub) : Hub :=
  match userClients h !! PM_UserID pm with
  | Some client => SendMessage client (PM_Message pm) h
  | None => h
  end.

Definition handleJoinRoom (sl sj : Stamp) (op : RoomOperation) (h : Hub) : Hub :=
  let client := Op_Client op in
  let user := GetUser h client in
  let currentRoom := GetRoomID h client in
  let h1 := leaveCurrent sl user currentRoom h in
  let room :=
    match rooms h1 !! Op_RoomID op with
    | Some room => room
    | None => NewRoom (Op_RoomID op) (Op_RoomID op)
    end in
  let room' := AddUser (User_ID user) room in
  let h2 := with_rooms (<[Op_RoomID op := room']> (rooms h1)) h1 in
  let h3 := SetRoomID client (Op_RoomID op) (SetUserRoom client (Op_RoomID op) h2) in
  let h4 := broadcastToRoom (Op_RoomID op) (joinMessage sj user (Op_RoomID op)) h3 in
  foldl (λ h' msg, SendMessage client msg h') h4 (Room_Messages room').

Definition handleLeaveRoom (s : Stamp) (op : RoomOperation) (h : Hub) : Hub :=
  let client := Op_Client op in
  let user := GetUser h client in
  match rooms h !! Op_RoomID op with
  | Some room =>
      let h1 := with_rooms (<[Op_RoomID op := RemoveUser (User_ID user) room]> (rooms h)) h in
      let h2 := SetRoomID client "" (SetUserRoom client "" h1) in
      broadcastToRoom (Op_RoomID op) (leaveMessage s user (Op_RoomID op)) h2
  | None => h
  end.

(** [CreateRoom]: a room under a fresh id; [uuid] is what
    [uuid.New().String()] returns. *)
Definition CreateRoom (uuid name : string) (h : Hub) : Room * Hub :=
  let room := NewRoom uuid name in
  (room, with_rooms (<[uuid := room]> (rooms h)) h).

(** [GetRooms]: a copy of the room table. *)
Definition GetRooms (h : Hub) : gmap string Room := rooms h.

(** [GetUsers]: a copy of the user-lookup table. *)
Definition GetUsers (h : Hub) : gmap string Client := userClients h.

(** Modelled from the spec: the room directory of [internal/api] is not
    among the sources; section 6 gives its entries as
    [{ id, name, user_count }], built from the snapshot of [GetRooms]. *)
Record RoomEntry := mkRoomEntry {
  entry_id : string;
  entry_name : string;
  entry_user_count : nat
}.

Definition listRooms (h : Hub) : list RoomEntry :=
  (λ kr, {| entry_id := Room_ID kr.2; entry_name := Room_Name kr.2;
            entry_user_count := size (Room_Users kr.2) |})
    <$> map_to_list (GetRooms h).

(** *** The loop of [Run] *)

Inductive Request :=
  | ReqRegister (client : Client) (s1 s2 : Stamp)
  | ReqUnregister (client : Client) (s : Stamp)
  | ReqBroadcast (m : Message)
  | ReqSendToUser (pm : PrivateMessage)
  | ReqJoinRoom (op : RoomOperation) (sl sj : Stamp)
  | ReqLeaveRoom (op : RoomOperation) (s : Stamp).

Definition step (h : Hub) (r : Request) : Hub :=
  match r with
  | ReqRegister client s1 s2 => registerClient s1 s2 client h
  | ReqUnregister client s => unregisterClient s client h
  | ReqBroadcast m => broadcastMessage m h
  | ReqSendToUser pm => sendPrivateMessage pm h
  | ReqJoinRoom op sl sj => handleJoinRoom sl sj op h
  | ReqLeaveRoom op s => handleLeaveRoom s op h
  end.

(** The requests of a run applied in arrival order. *)
Definition serve (h : Hub) (rs : list Request) : Hub := foldl step h rs.

(** [Run]: the default room is created, then the requests are served. *)
Definition Run_init (h : Hub) : Hub :=
  with_rooms (<["general" := NewRoom "general" "General Chat"]> (rooms h)) h.

Definition Run (h : Hub) (rs : list Request) : Hub := serve (Run_init h) rs.

(** *** Observations used by the properties *)

(** The history of a room, empty for a room that does not exist. *)
Definition history (h : Hub) (roomID : string) : list Message :=
  match rooms h !! roomID with
  | Some room => Room_Messages room
  | None => []
  end.

(** The member set of a room, empty for a room that does not exist. *)
Definition members (h : Hub) (roomID : string) : gset string :=
  match rooms h !! roomID with
  | Some room => Room_Users room
  | None => ∅
  end.

(** How many of the user ids of [l] are routed to client [c]. *)
Definition copies (h : Hub) (l : list string) (c : Client) : nat :=
  length (filter (λ u, userClients h !! u = Some c) l).

(** The user ids of the registered clients. *)
Definition registered_ids (h : Hub) : gset string :=
  set_map (λ c, User_ID (GetUser h c)) (clients h).

(** Every routing entry leads to a client bound to that user id. *)
Definition handles_wf (h : Hub) : Prop :=
  map_Forall (λ u c, User_ID (GetUser h c) = u) (userClients h).

Global Instance handles_wf_dec (h : Hub) : Decision (handles_wf h).
Proof. unfold handles_wf. apply _. Defined.

(** *** Scenarios

    Two connections, Alice's (client 1) and Bob's (client 2), and a few
    runs over them; the concrete instances of the properties below are
    taken on these. *)

Definition stamp (n : Z) : Stamp := mkStamp "generated" n.

Definition connected : Hub :=
  with_heap (<[1 := mkClientObj (mkUser "alice" "Alice" "") "" []]>
            (<[2 := mkClientObj (mkUser "bob" "Bob" "") "" []]> ∅)) NewHub.

Definition hi : Message :=
  {| Message_ID := "m1"; Message_Type := MessageTypeText; Message_Content := "hi";
     Message_Sender := "Alice"; Message_SenderID := "alice";
     Message_Room := "general"; Message_Recipient := "";
     Message_Timestamp := 5 |}.

(** Alice and Bob registered and both in "general". *)
Definition both_in_general : Hub :=
  Run connected
    [ReqRegister 1 (stamp 1) (stamp 2); ReqRegister 2 (stamp 3) (stamp 4);
     ReqJoinRoom (mkRoomOperation 1 "general") (stamp 5) (stamp 6);
     ReqJoinRoom (mkRoomOperation 2 "general") (stamp 7) (stamp 8)].

(** Alice in "general", where "hi" was broadcast before Bob registered. *)
Definition hi_before_bob : Hub :=
  Run connected
    [ReqRegister 1 (stamp 1) (stamp 2);
     ReqJoinRoom (mkRoomOperation 1 "general") (stamp 3) (stamp 4);
     ReqBroadcast hi;
     ReqRegister 2 (stamp 5) (stamp 6)].

(** Alice leaves "general" once, and once more. *)
Definition alice_left_once : Hub :=
  handleLeaveRoom (stamp 9) (mkRoomOperation 1 "general") both_in_general.

Definition alice_left_twice : Hub :=
  handleLeaveRoom (stamp 10) (mkRoomOperation 1 "general") alice_left_once.

(** Alice connects a second time (client 3, same user id) while her first
    connection (client 1) is still registered. *)
Definition reconnecting : Hub :=
  with_heap (<[1 := mkClientObj (mkUser "alice" "Alice" "") "" []]>
            (<[3 := mkClientObj (mkUser "alice" "Alice" "") "" []]> ∅)) NewHub.

Definition reconnect_run : list Request :=
  [ReqRegister 1 (stamp 1) (stamp 2); ReqRegister 3 (stamp 3) (stamp 4);
   ReqUnregister 1 (stamp 5)].

(** Alice joins "lobby", asks to leave "general" (a room she is not in),
    and joins "games". *)
Definition stray_leave_run : list Request :=
  [ReqRegister 1 (stamp 1) (stamp 2);
   ReqJoinRoom (mkRoomOperation 1 "lobby") (stamp 3) (stamp 4);
   ReqLeaveRoom (mkRoomOperation 1 "general") (stamp 5);
   ReqJoinRoom (mkRoomOperation 1 "games") (stamp 6) (stamp 7)].

(** Invariant I1: no user id is a member of two rooms. *)
Definition single_room (h : Hub) : Prop :=
  ∀ u R1 R2, u ∈ members h R1 → u ∈ members h R2 → R1 = R2.

(** Invariant I2: the routing table has an entry for exactly the user ids
    of the registered clients. *)
Definition routing_matches_clients (h : Hub) : Prop :=
  dom (userClients h) = registered_ids h.

(** *** Disciplined runs

    The conditions under which the two invariants do hold along a run. *)

(** The clients a run registers. *)
Definition registered_by (rs : list Request) : list Client :=
  omap (λ r, match r with ReqRegister client _ _ => Some client | _ => None end) rs.

(** The clients a run moves between rooms. *)
Definition moved_by (rs : list Request) : list Client :=
  omap (λ r, match r with
             | ReqJoinRoom op _ _ => Some (Op_Client op)
             | ReqLeaveRoom op _ => Some (Op_Client op)
             | _ => None
             end) rs.

(** No two clients of [cs] are bound to the same user id. *)
Definition distinct_ids (h : Hub) (cs : list Client) : Prop :=
  ∀ c1 c2, c1 ∈ cs → c2 ∈ cs →
           User_ID (GetUser h c1) = User_ID (GetUser h c2) → c1 = c2.

(** A join names a room, and a leave names the room the client's room
    pointer names (or a room that does not exist). *)
Definition tidy (h : Hub) (r : Request) : Prop :=
  match r with
  | ReqJoinRoom op _ _ => Op_RoomID op ≠ ""
  | ReqLeaveRoom op _ =>
      Op_RoomID op = GetRoomID h (Op_Client op) ∨ rooms h !! Op_RoomID op = None
  | _ => True
  end.

(** A run each of whose requests is tidy in the state it is served in. *)
Fixpoint tidy_run (h : Hub) (rs : list Request) : Prop :=
  match rs with
  | [] => True
  | r :: rs' => tidy h r ∧ tidy_run (step h r) rs'
  end.

(** The routing table and the client set agree, for clients among [cs]
    bound to the user ids [ids]. *)
Definition routed (ids : Client → string) (cs : list Client) (h : Hub) : Prop :=
  (∀ c, User_ID (GetUser h c) = ids c) ∧
  (∀ c, c ∈ clients h → c ∈ cs ∧ userClients h !! ids c = Some c) ∧
  (∀ u c, userClients h !! u = Some c → c ∈ clients h ∧ ids c = u).

(** Every membership is backed by the room pointer of a client of [cs]
    bound to that user id. *)
Definition housed (ids : Client → string) (cs : list Client) (h : Hub) : Prop :=
  (∀ c, User_ID (GetUser h c) = ids c) ∧
  (∀ u R, u ∈ members h R →
          R ≠ "" ∧ ∃ c, c ∈ cs ∧ ids c = u ∧ GetRoomID h c = R).

(** *** Further observations *)

(** The messages the broadcast requests of a run address to room
    [roomID], in arrival order; a message with an empty [Room] field
    addresses no room. *)
Definition broadcasts_to (roomID : string) (rs : list Request) : list Message :=
  omap (λ r, match r with
             | ReqBroadcast m =>
                 if decide (Message_Room m = roomID ∧ roomID ≠ "") then Some m else None
             | _ => None
             end) rs.

(** Every room is stored under its own id. *)
Definition room_keys_wf (h : Hub) : Prop :=
  map_Forall (λ k room, Room_ID room = k) (rooms h).

Global Instance room_keys_wf_dec (h : Hub) : Decision (room_keys_wf h).
Proof. unfold room_keys_wf. apply _. Defined.

(** Alice alone in "general", Bob registered but in no room. *)
Definition alice_in_general : Hub :=
  Run connected
    [ReqRegister 1 (stamp 1) (stamp 2); ReqRegister 2 (stamp 3) (stamp 4);
     ReqJoinRoom (mkRoomOperation 1 "general") (stamp 5) (stamp 6)].

(** Requests that only carry messages: room broadcasts and private
    messages. *)
Definition chatter (r : Request) : Prop :=
  match r with
  | ReqBroadcast _ | ReqSendToUser _ => True
  | _ => False
  end.

Global Instance chatter_dec (r : Request) : Decision (chatter r).
Proof. destruct r; apply _. Defined.

(** The member [uid] of room [R], routed to client [c], has been handed
    the history of [R]. *)
Definition caught_up (c : Client) (uid R : string) (h : Hub) : Prop :=
  handles_wf h ∧ userClients h !! uid = Some c ∧ uid ∈ members h R ∧
  history h R `sublist_of` sent h c.

Definition hello : Message :=
  {| Message_ID := "m3"; Message_Type := MessageTypeText; Message_Content := "hello";
     Message_Sender := "Bob"; Message_SenderID := "bob";
     Message_Room := "general"; Message_Recipient := "";
     Message_Timestamp := 9 |}.

Definition whisper : Message :=
  {| Message_ID := "m4"; Message_Type := MessageTypePrivate; Message_Content := "psst";
     Message_Sender := "Alice"; Message_SenderID := "alice";
     Message_Room := ""; Message_Recipient := "bob";
     Message_Timestamp := 11 |}.

End ChatHub.

(** ** Part II: the signaling Relay, [video_service/internal/hub/hub.go] *)

Module Relay.

(** *** JSON texts

    The Relay wraps every message with [json.Marshal], which fails when the
    [json.RawMessage] it is given is not a valid JSON text.  [json_Valid]
    follows the grammar the scanner of [encoding/json] accepts (RFC 8259;
    the scanner's limit on the depth of nesting is left out).
    A byte slice is a [string]: a sequence of 8-bit characters. *)

Definition is_space (c : ascii) : bool :=
  Ascii.eqb c " " || Ascii.eqb c "009" || Ascii.eqb c "010" || Ascii.eqb c "013".

Definition is_digit (c : ascii) : bool :=
  (48 <=? nat_of_ascii c)%nat && (nat_of_ascii c <=? 57)%nat.

Definition is_hex (c : ascii) : bool :=
  is_digit c
  || ((65 <=? nat_of_ascii c)%nat && (nat_of_ascii c <=? 70)%nat)
  || ((97 <=? nat_of_ascii c)%nat && (nat_of_ascii c <=? 102)%nat).

(** The characters that may follow a backslash, [u] apart. *)
Definition is_escape (c : ascii) : bool :=
  Ascii.eqb c "034" || Ascii.eqb c "\" || Ascii.eqb c "/" || Ascii.eqb c "b"
  || Ascii.eqb c "f" || Ascii.eqb c "n" || Ascii.eqb c "r" || Ascii.eqb c "t".

Fixpoint skip_space (s : string) : string :=
  match s with
  | String c s' => if is_space c then skip_space s' else s
  | EmptyString => s
  end.

Fixpoint skip_digits (s : string) : string :=
  match s with
  | String c s' => if is_digit c then skip_digits s' else s
  | EmptyString => s
  end.

(** One digit or more. *)
Definition scan_digits (s : string) : option string :=
  match s with
  | String c s' => if is_digit c then Some (skip_digits s') else None
  | EmptyString => None
  end.

(** The rest of a string literal, after its opening quote. *)
Fixpoint scan_string (s : string) : option string :=
  match s with
  | EmptyString => None
  | String c s1 =>
      if Ascii.eqb c "034" then Some s1
      else if Ascii.eqb c "\" then
        match s1 with
        | EmptyString => None
        | String e s2 =>
            if is_escape e then scan_string s2
            else if Ascii.eqb e "u" then
              match s2 with
              | String h1 (String h2 (String h3 (String h4 s3))) =>
                  if is_hex h1 && is_hex h2 && is_hex h3 && is_hex h4
                  then scan_string s3 else None
              | _ => None
              end
            else None
        end
      else if (nat_of_ascii c <? 32)%nat then None
      else scan_string s1
  end.

Definition scan_exponent (s : string) : option string :=
  match s with
  | String c s1 =>
      if Ascii.eqb c "e" || Ascii.eqb c "E" then
        match s1 with
        | String sign s2 =>
            if Ascii.eqb sign "+" || Ascii.eqb sign "-"
            then scan_digits s2 else scan_digits s1
        | EmptyString => None
        end
      else Some s
  | EmptyString => Some s
  end.

Definition scan_fraction (s : string) : option string :=
  match s with
  | String c s1 =>
      if Ascii.eqb c "." then
        match scan_digits s1 with
        | Some s2 => scan_exponent s2
        | None => None
        end
      else scan_exponent s
  | EmptyString => Some s
  end.

Definition scan_number (s : string) : option string :=
  let s0 := match s with
            | String c s' => if Ascii.eqb c "-" then s' else s
            | EmptyString => s
            end in
  match s0 with
  | String c s1 =>
      if Ascii.eqb c "0" then scan_fraction s1
      else if is_digit c then scan_fraction (skip_digits s1)
      else None
  | EmptyString => None
  end.

Fixpoint scan_literal (lit s : string) : option string :=
  match lit, s with
  | EmptyString, _ => Some s
  | String a lit', String c s' => if Ascii.eqb a c then scan_literal lit' s' else None
  | String _ _, EmptyString => None
  end.

(** A value, the members of an object after its brace or a comma, and the
    elements of an array after a comma.  Every call consumes a character
    before it calls again, so a fuel of the length of the text is enough. *)
Fixpoint scan_value (fuel : nat) (s : string) : option string :=
  match fuel with
  | O => None
  | S fuel =>
      match skip_space s with
      | EmptyString => None
      | String c s1 =>
          if Ascii.eqb c "{" then
            match skip_space s1 with
            | String c' s2 =>
                if Ascii.eqb c' "}" then Some s2 else scan_members fuel s1
            | EmptyString => None
            end
          else if Ascii.eqb c "[" then
            match skip_space s1 with
            | String c' s2 =>
                if Ascii.eqb c' "]" then Some s2 else scan_elements fuel s1
            | EmptyString => None
            end
          else if Ascii.eqb c "034" then scan_string s1
          else if Ascii.eqb c "t" then scan_literal "rue" s1
          else if Ascii.eqb c "f" then scan_literal "alse" s1
          else if Ascii.eqb c "n" then scan_literal "ull" s1
          else if Ascii.eqb c "-" || is_digit c then scan_number (String c s1)
          else None
      end
  end
with scan_members (fuel : nat) (s : string) : option string :=
  match fuel with
  | O => None
  | S fuel =>
      match skip_space s with
      | EmptyString => None
      | String q s1 =>
          if Ascii.eqb q "034" then
            match scan_string s1 with
            | None => None
            | Some s2 =>
                match skip_space s2 with
                | EmptyString => None
                | String colon s3 =>
                    if Ascii.eqb colon ":" then
                      match scan_value fuel s3 with
                      | None => None
                      | Some s4 =>
                          match skip_space s4 with
                          | EmptyString => None
                          | String d s5 =>
                              if Ascii.eqb d "," then scan_members fuel s5
                              else if Ascii.eqb d "}" then Some s5
                              else None
                          end
                      end
                    else None
                end
            end
          else None
      end
  end
with scan_elements (fuel : nat) (s : string) : option string :=
  match fuel with
  | O => None
  | S fuel =>
      match scan_value fuel s with
      | None => None
      | Some s1 =>
          match skip_space s1 with
          | EmptyString => None
          | String d s2 =>
              if Ascii.eqb d "," then scan_elements fuel s2
              else if Ascii.eqb d "]" then Some s2
              else None
          end
      end
  end.

(** [json.Valid]: one value, with white space around it and nothing else. *)
Definition json_Valid (data : string) : bool :=
  match scan_value (S (S (String.length data))) data with
  | Some rest => match skip_space rest with EmptyString => true | _ => false end
  | None => false
  end.

(** *** Data model *)

Definition OfferMsg : string := "offer".
Definition AnswerMsg : string := "answer".
Definition IceMsg : string := "ice".
Definition JoinMsg : string := "join".

(** The signaling message; [Data] is a byte slice, [None] when nil. *)
Record Message := mkMessage {
  From : string;
  To : string;
  MType : string;
  Data : option string
}.

(** The values the Relay hands to [json.Marshal]. *)
Inductive GoValue :=
  | GoString (s : string)
  | GoRawMessage (raw : option string).

(** [json.RawMessage.MarshalJSON] gives "null" for a nil slice and the
    slice itself otherwise; the encoder then rejects what is not a valid
    JSON text.  Strings always marshal. *)
Definition marshals (v : GoValue) : bool :=
  match v with
  | GoString _ => true
  | GoRawMessage None => true
  | GoRawMessage (Some raw) => json_Valid raw
  end.

(** The text [json.Marshal] produces for a [map[string]interface{}] is
    kept as the object it encodes: the byte-level encoding is not
    modelled, only whether marshalling succeeds. *)
Inductive JSONText :=
  | Marshalled (object : gmap string GoValue).

Definition json_Marshal (object : gmap string GoValue) : option JSONText :=
  if decide (map_Forall (λ _ v, marshals v = true) object)
  then Some (Marshalled object) else None.

(** A buffered channel of marshalled texts: what is queued (oldest
    first), its capacity, and whether it has been closed. *)
Record Chan := mkChan {
  chan_buf : list JSONText;
  chan_cap : nat;
  chan_closed : bool
}.

(** A [*Client] is a reference to a client object; [Conn], which the Hub
    never touches, is left out.  Each client owns its [Send] channel
    ([routes.go] makes one per connection). *)
Definition Client := nat.

Record ClientObj := mkClientObj {
  Send : Chan;
  ID : string
}.

Global Instance ClientObj_inhabited : Inhabited ClientObj :=
  populate {| Send := mkChan [] 0 false; ID := "" |}.

Record Hub := mkHub {
  clients : gmap string Client;
  heap : gmap Client ClientObj
}.

(** A Go run-time panic ends the [Run] goroutine, and with it the process. *)
Inductive Outcome :=
  | Ok (h : Hub)
  | Panic.

Definition NewHub : Hub := {| clients := ∅; heap := ∅ |}.

Definition ID_of (h : Hub) (c : Client) : string := ID (heap h !!! c).
Definition Send_of (h : Hub) (c : Client) : Chan := Send (heap h !!! c).

Definition with_Send (c : Client) (ch : Chan) (h : Hub) : Hub :=
  {| clients := clients h;
     heap := <[c := {| Send := ch; ID := ID (heap h !!! c) |}]> (heap h) |}.

(** *** The three cases of [Run] *)

(** [case client := <-h.Register] *)
Definition Register (client : Client) (h : Hub) : Outcome :=
  Ok {| clients := <[ID_of h client := client]> (clients h); heap := heap h |}.

(** [close(client.Send)]: closing a closed channel panics. *)
Definition close_Send (client : Client) (h : Hub) : Outcome :=
  let ch := Send_of h client in
  if chan_closed ch then Panic
  else Ok (with_Send client (mkChan (chan_buf ch) (chan_cap ch) true) h).

(** [case client := <-h.Unregister] *)
Definition Unregister (client : Client) (h : Hub) : Outcome :=
  match clients h !! ID_of h client with
  | Some _ =>
      close_Send client
        {| clients := delete (ID_of h client) (clients h); heap := heap h |}
  | None => Ok h
  end.

Definition fullMsg (msg : Message) : gmap string GoValue :=
  <["from" := GoString (From msg)]>
    (<["to" := GoString (To msg)]>
      (<["type" := GoString (MType msg)]>
        (<["data" := GoRawMessage (Data msg)]> ∅))).

(** [select { case to.Send <- msgBytes: default: }]: a send on a closed
    channel panics; otherwise the text is queued when the buffer has room
    and dropped when it has none. *)
Definition try_send (to : Client) (msgBytes : JSONText) (h : Hub) : Outcome :=
  let ch := Send_of h to in
  if chan_closed ch then Panic
  else if decide (length (chan_buf ch) < chan_cap ch) then
    Ok (with_Send to (mkChan (chan_buf ch ++ [msgBytes]) (chan_cap ch) false) h)
  else Ok h.

(** [case msg := <-h.Broadcast] *)
Definition Broadcast (msg : Message) (h : Hub) : Outcome :=
  match clients h !! To msg with
  | Some to =>
      match json_Marshal (fullMsg msg) with
      | None => Ok h
      | Some msgBytes => try_send to msgBytes h
      end
  | None => Ok h
  end.

Inductive Request :=
  | ReqRegister (client : Client)
  | ReqUnregister (client : Client)
  | ReqBroadcast (msg : Message).

Definition step (h : Hub) (r : Request) : Outcome :=
  match r with
  | ReqRegister client => Register client h
  | ReqUnregister client => Unregister client h
  | ReqBroadcast msg => Broadcast msg h
  end.

(** [Run]: the requests in arrival order, until one panics. *)
Fixpoint Run (h : Hub) (rs : list Request) : Outcome :=
  match rs with
  | [] => Ok h
  | r :: rs' =>
      match step h r with
      | Ok h' => Run h' rs'
      | Panic => Panic
      end
  end.

(** *** Scenarios

    Two peers, each with an empty [Send] channel of capacity 256 as
    [routes.go] makes them; client 3 is a second connection under the id
    of the first peer. *)

Definition peers : Hub :=
  {| clients := ∅;
     heap := <[1 := mkClientObj (mkChan [] 256 false) "p1"]>
            (<[2 := mkClientObj (mkChan [] 256 false) "p2"]>
            (<[3 := mkClientObj (mkChan [] 256 false) "p1"]> ∅)) |}.

Definition both_registered : Hub :=
  {| clients := <["p1" := 1]> (<["p2" := 2]> ∅); heap := heap peers |}.

Definition offer : Message :=
  {| From := "p1"; To := "p2"; MType := OfferMsg; Data := Some "{}" |}.

(** A message whose payload is cut short. *)
Definition truncated : Message :=
  {| From := "p1"; To := "p2"; MType := IceMsg; Data := Some "{" |}.

(** A peer whose queue holds as many texts as it can, here one. *)
Definition p2_saturated : Hub :=
  {| clients := <["p2" := 2]> ∅;
     heap := <[2 := mkClientObj (mkChan [Marshalled (fullMsg offer)] 1 false) "p2"]> ∅ |}.

(** [settled h cs]: each client of [cs] has its [Send] channel open, or
    closed with its id out of the table.  A client that is registered
    once is in the first case until it is unregistered, and in the second
    afterwards for as long as no other client registers under its id. *)
Definition settled (h : Hub) (cs : list Client) : Prop :=
  Forall (λ c, chan_closed (Send_of h c) = true → clients h !! ID_of h c = None) cs.

Global Instance settled_dec (h : Hub) (cs : list Client) : Decision (settled h cs).
Proof. unfold settled. apply _. Defined.

(** *** Runs of the transport

    What [routes.go] sends the Hub for one connection: the registration of
    its client, a forward for every frame that decodes, and, when reading
    fails, the unregistration of the client. *)
Definition connection (client : Client) (msgs : list Message) : list Request :=
  ReqRegister client :: (ReqBroadcast <$> msgs) ++ [ReqUnregister client].

(** Connections served one after the other. *)
Definition sessions (conns : list (Client * list Message)) : list Request :=
  concat ((λ cm, connection cm.1 cm.2) <$> conns).

(** The clients a run registers or unregisters. *)
Definition named (rs : list Request) : list Client :=
  omap (λ r, match r with
             | ReqRegister client | ReqUnregister client => Some client
             | ReqBroadcast _ => None
             end) rs.

(** Once a client has been unregistered the run does not name it again:
    it is unregistered once, and not registered afterwards. *)
Fixpoint disciplined (rs : list Request) : Prop :=
  match rs with
  | [] => True
  | r :: rs' =>
      match r with
      | ReqUnregister client => client ∉ named rs'
      | _ => True
      end ∧ disciplined rs'
  end.

Global Instance disciplined_dec (rs : list Request) : Decision (disciplined rs).
Proof. induction rs as [|[]]; cbn; apply _. Defined.

(** Every entry of the table is filed under the id of its client, and
    that client's channel is open. *)
Definition table_open (h : Hub) : Prop :=
  map_Forall (λ id c, ID_of h c = id ∧ chan_closed (Send_of h c) = false) (clients h).

Global Instance table_open_dec (h : Hub) : Decision (table_open h).
Proof. unfold table_open. apply _. Defined.

Definition all_open (h : Hub) (cs : list Client) : Prop :=
  Forall (λ c, chan_closed (Send_of h c) = false) cs.

Global Instance all_open_dec (h : Hub) (cs : list Client) : Decision (all_open h cs).
Proof. unfold all_open. apply _. Defined.

(** No queue holds more than its capacity. *)
Definition queues_bounded (h : Hub) : Prop :=
  map_Forall (λ _ o, (length (chan_buf (Send o)) ≤ chan_cap (Send o))%nat) (heap h).

Global Instance queues_bounded_dec (h : Hub) : Decision (queues_bounded h).
Proof. unfold queues_bounded. apply _. Defined.

(** The text the Relay queues for a message. *)
Definition envelope (msg : Message) : JSONText := Marshalled (fullMsg msg).

Definition ice : Message :=
  {| From := "p1"; To := "p2"; MType := IceMsg; Data := None |}.

(** Three connections served in an interleaving: the second connection
    under "p1" (client 3) registers after the first (client 1) is gone. *)
Definition three_connections : list Request :=
  [ReqRegister 1; ReqRegister 2; ReqBroadcast offer; ReqUnregister 1;
   ReqRegister 3; ReqBroadcast truncated; ReqBroadcast ice;
   ReqUnregister 2; ReqUnregister 3].

(** The clients a run registers. *)
Definition registered (rs : list Request) : list Client :=
  omap (λ r, match r with ReqRegister client => Some client | _ => None end) rs.

(** The run registers each client at most once, and no two of the clients
    it names carry the same id. *)
Definition registered_once (h : Hub) (rs : list Request) : Prop :=
  NoDup (registered rs) ∧
  Forall (λ c1, Forall (λ c2, ID_of h c1 = ID_of h c2 → c1 = c2) (named rs)) (named rs).

Global Instance registered_once_dec (h : Hub) (rs : list Request) :
  Decision (registered_once h rs).
Proof. unfold registered_once. apply _. Defined.

(** The state of the Relay in the course of such a run, [cs] being the
    clients of the run and [rs] what is left of it: the clients of [cs]
    have ids of their own; every entry of the table is filed under the id
    of its client, which is one of [cs], has an open channel and is not
    registered again; and the clients still to be registered have open
    channels. *)
Definition guarded (cs : list Client) (rs : list Request) (h : Hub) : Prop :=
  (∀ c1 c2, c1 ∈ cs → c2 ∈ cs → ID_of h c1 = ID_of h c2 → c1 = c2) ∧
  (∀ id c, clients h !! id = Some c →
           ID_of h c = id ∧ chan_closed (Send_of h c) = false ∧
           c ∈ cs ∧ c ∉ registered rs) ∧
  (∀ c, c ∈ registered rs → chan_closed (Send_of h c) = false) ∧
  NoDup (registered rs) ∧
  (∀ c, c ∈ named rs → c ∈ cs).

End Relay.

(** ** Part III: properties of the chat Hub *)

Module ChatHubTheory.
Import ChatHub.

(** *** The client store *)

Section client_store.
Implicit Types (h : Hub) (c : Client) (m : Message).

Lemma sent_SendMessage c m h c' :
  sent (SendMessage c m h) c' =
  if decide (c' = c) then sent h c ++ [m] else sent h c'.
Proof.
  unfold sent, SendMessage, with_heap; cbn.
  case_decide as Hc.
  - subst. by rewrite lookup_total_insert_eq.
  - by rewrite lookup_total_insert_ne.
Qed.

Lemma GetUser_SendMessage c m h c' :
  GetUser (SendMessage c m h) c' = GetUser h c'.
Proof.
  unfold GetUser, SendMessage, with_heap; cbn.
  destruct (decide (c = c')) as [->|Hc].
  - by rewrite lookup_total_insert_eq.
  - by rewrite lookup_total_insert_ne.
Qed.

Lemma GetRoomID_SendMessage c m h c' :
  GetRoomID (SendMessage c m h) c' = GetRoomID h c'.
Proof.
  unfold GetRoomID, SendMessage, with_heap; cbn.
  destruct (decide (c = c')) as [->|Hc].
  - by rewrite lookup_total_insert_eq.
  - by rewrite lookup_total_insert_ne.
Qed.

Lemma sent_SetRoomID c roomID h c' :
  sent (SetRoomID c roomID h) c' = sent h c'.
Proof.
  unfold sent, SetRoomID, with_heap; cbn.
  destruct (decide (c = c')) as [->|Hc].
  - by rewrite lookup_total_insert_eq.
  - by rewrite lookup_total_insert_ne.
Qed.

Lemma sent_SetUserRoom c roomID h c' :
  sent (SetUserRoom c roomID h) c' = sent h c'.
Proof.
  unfold sent, SetUserRoom, with_heap; cbn.
  destruct (decide (c = c')) as [->|Hc].
  - by rewrite lookup_total_insert_eq.
  - by rewrite lookup_total_insert_ne.
Qed.

Lemma User_ID_SetRoomID c roomID h c' :
  User_ID (GetUser (SetRoomID c roomID h) c') = User_ID (GetUser h c').
Proof.
  unfold GetUser, SetRoomID, with_heap; cbn.
  destruct (decide (c = c')) as [->|Hc].
  - by rewrite lookup_total_insert_eq.
  - by rewrite lookup_total_insert_ne.
Qed.

Lemma User_ID_SetUserRoom c roomID h c' :
  User_ID (GetUser (SetUserRoom c roomID h) c') = User_ID (GetUser h c').
Proof.
  unfold GetUser, SetUserRoom, with_heap; cbn.
  destruct (decide (c = c')) as [->|Hc].
  - by rewrite lookup_total_insert_eq.
  - by rewrite lookup_total_insert_ne.
Qed.

Lemma GetRoomID_SetRoomID c roomID h c' :
  GetRoomID (SetRoomID c roomID h) c' =
  if decide (c' = c) then roomID else GetRoomID h c'.
Proof.
  unfold GetRoomID, SetRoomID, with_heap; cbn.
  case_decide as Hc.
  - subst. by rewrite lookup_total_insert_eq.
  - by rewrite lookup_total_insert_ne.
Qed.

Lemma GetRoomID_SetUserRoom c roomID h c' :
  GetRoomID (SetUserRoom c roomID h) c' = GetRoomID h c'.
Proof.
  unfold GetRoomID, SetUserRoom, with_heap; cbn.
  destruct (decide (c = c')) as [->|Hc].
  - by rewrite lookup_total_insert_eq.
  - by rewrite lookup_total_insert_ne.
Qed.
End client_store.

(** *** Delivery to the members of a room *)

Section delivery.
Implicit Types (h : Hub) (c : Client) (m : Message) (l : list string).

Lemma deliver_tables m h u :
  clients (deliver m h u) = clients h ∧
  userClients (deliver m h u) = userClients h ∧
  rooms (deliver m h u) = rooms h.
Proof. unfold deliver. by destruct (userClients h !! u). Qed.

Lemma foldl_deliver_tables m l h :
  clients (foldl (deliver m) h l) = clients h ∧
  userClients (foldl (deliver m) h l) = userClients h ∧
  rooms (foldl (deliver m) h l) = rooms h.
Proof.
  revert h. induction l as [|u l IH]; intros h; [done|]. cbn.
  destruct (IH (deliver m h u)) as (-> & -> & ->).
  apply deliver_tables.
Qed.

Lemma GetUser_foldl_deliver m l h c :
  GetUser (foldl (deliver m) h l) c = GetUser h c.
Proof.
  revert h. induction l as [|u l IH]; intros h; [done|]. cbn.
  rewrite IH. unfold deliver.
  destruct (userClients h !! u); [apply GetUser_SendMessage | done].
Qed.

Lemma GetRoomID_foldl_deliver m l h c :
  GetRoomID (foldl (deliver m) h l) c = GetRoomID h c.
Proof.
  revert h. induction l as [|u l IH]; intros h; [done|]. cbn.
  rewrite IH. unfold deliver.
  destruct (userClients h !! u); [apply GetRoomID_SendMessage | done].
Qed.

Lemma copies_cons h u l c :
  copies h (u :: l) c =
  (if decide (userClients h !! u = Some c) then 1 else 0) + copies h l c.
Proof.
  unfold copies. rewrite filter_cons. by case_decide.
Qed.

(** Each member id routed to [c] adds one copy of [m] to what [c] was
    sent. *)
Lemma sent_foldl_deliver m l h c :
  sent (foldl (deliver m) h l) c = sent h c ++ replicate (copies h l c) m.
Proof.
  revert h. induction l as [|u l IH]; intros h.
  { cbn. by rewrite app_nil_r. }
  cbn [foldl]. rewrite IH, copies_cons.
  assert (copies (deliver m h u) l c = copies h l c) as ->.
  { unfold copies. by destruct (deliver_tables m h u) as (_ & -> & _). }
  unfold deliver. destruct (userClients h !! u) as [c'|] eqn:Hu.
  - rewrite sent_SendMessage. case_decide as Hc; subst.
    + rewrite decide_True by done. cbn. by rewrite <-app_assoc.
    + rewrite decide_False by congruence. done.
  - rewrite decide_False by done. done.
Qed.

Lemma SendMessage_comm c1 c2 m h :
  SendMessage c1 m (SendMessage c2 m h) = SendMessage c2 m (SendMessage c1 m h).
Proof.
  destruct (decide (c1 = c2)) as [->|Hne]; [done|].
  unfold SendMessage, with_heap; cbn. f_equal.
  rewrite !lookup_total_insert_ne by done.
  by apply insert_insert_ne.
Qed.

Lemma deliver_comm m h u1 u2 :
  deliver m (deliver m h u1) u2 = deliver m (deliver m h u2) u1.
Proof.
  unfold deliver.
  destruct (userClients h !! u1) as [c1|] eqn:H1;
    destruct (userClients h !! u2) as [c2|] eqn:H2; cbn;
    rewrite ?H1, ?H2; try done.
  apply SendMessage_comm.
Qed.

(** The order in which the members of a room are visited does not
    matter. *)
Lemma broadcast_order m l1 l2 h :
  l1 ≡ₚ l2 → foldl (deliver m) h l1 = foldl (deliver m) h l2.
Proof.
  intros Hp. revert h.
  induction Hp as [|u l1 l2 _ IH|u1 u2 l|l1 l2 l3 _ IH1 _ IH2]; intros h.
  - done.
  - cbn. apply IH.
  - cbn. by rewrite deliver_comm.
  - by rewrite IH1.
Qed.

Lemma broadcastToRoom_tables roomID m h :
  clients (broadcastToRoom roomID m h) = clients h ∧
  userClients (broadcastToRoom roomID m h) = userClients h ∧
  rooms (broadcastToRoom roomID m h) = rooms h.
Proof.
  unfold broadcastToRoom. destruct (rooms h !! roomID); [|done].
  apply foldl_deliver_tables.
Qed.

Lemma GetUser_broadcastToRoom roomID m h c :
  GetUser (broadcastToRoom roomID m h) c = GetUser h c.
Proof.
  unfold broadcastToRoom. destruct (rooms h !! roomID); [|done].
  apply GetUser_foldl_deliver.
Qed.

Lemma GetRoomID_broadcastToRoom roomID m h c :
  GetRoomID (broadcastToRoom roomID m h) c = GetRoomID h c.
Proof.
  unfold broadcastToRoom. destruct (rooms h !! roomID); [|done].
  apply GetRoomID_foldl_deliver.
Qed.

(** What a broadcast to a room adds to what [c] was sent: one copy of
    the message per member routed to [c]. *)
Lemma sent_broadcastToRoom roomID m h c :
  sent (broadcastToRoom roomID m h) c =
  sent h c ++ replicate (copies h (elements (members h roomID)) c) m.
Proof.
  unfold broadcastToRoom, members. destruct (rooms h !! roomID).
  - apply sent_foldl_deliver.
  - rewrite elements_empty. cbn. by rewrite app_nil_r.
Qed.

Lemma copies_none h l c :
  (∀ u, u ∈ l → userClients h !! u ≠ Some c) → copies h l c = 0.
Proof.
  induction l as [|u l IH]; intros Hno; [done|].
  rewrite copies_cons, decide_False, IH; [done| |].
  - intros u' Hu'. apply Hno. by right.
  - apply Hno. by left.
Qed.

(** With well-formed routing a client is the handle of at most one user
    id, so a broadcast hands it exactly one copy when that user is a
    member. *)
Lemma copies_wf h l c u :
  handles_wf h → u ∈ l → userClients h !! u = Some c → NoDup l →
  copies h l c = 1.
Proof.
  intros Hwf Hu Huc Hnd. revert Hu.
  induction Hnd as [|u' l Hu' Hnd IH]; intros Hu.
  { by apply elem_of_nil in Hu. }
  rewrite copies_cons. apply elem_of_cons in Hu as [<-|Hu].
  - rewrite decide_True by done. rewrite copies_none; [done|].
    intros u2 Hu2 Hc2. apply Hwf in Huc, Hc2. congruence.
  - rewrite decide_False; [by rewrite IH|].
    intros Hc'. apply Hwf in Huc, Hc'. congruence.
Qed.
End delivery.

(** *** Room broadcast and private delivery *)

Section broadcast.
Implicit Types (h : Hub) (c : Client) (m : Message).

Lemma broadcastMessage_missing m h :
  rooms h !! Message_Room m = None → broadcastMessage m h = h.
Proof.
  intros Hr. unfold broadcastMessage. case_decide; [|done].
  rewrite Hr. unfold broadcastToRoom. by rewrite Hr.
Qed.

Lemma broadcastMessage_tables m h :
  clients (broadcastMessage m h) = clients h ∧
  userClients (broadcastMessage m h) = userClients h.
Proof.
  unfold broadcastMessage. case_decide; [|done].
  destruct (broadcastToRoom_tables (Message_Room m) m
    match rooms h !! Message_Room m with
    | Some room => with_rooms (<[Message_Room m := AddMessage m room]> (rooms h)) h
    | None => h
    end) as (-> & -> & _).
  by destruct (rooms h !! Message_Room m).
Qed.

Lemma rooms_broadcastMessage m h room :
  rooms h !! Message_Room m = Some room → Message_Room m ≠ "" →
  rooms (broadcastMessage m h) = <[Message_Room m := AddMessage m room]> (rooms h).
Proof.
  intros Hr Hne. unfold broadcastMessage. rewrite decide_True by done.
  rewrite Hr. by destruct (broadcastToRoom_tables (Message_Room m) m
    (with_rooms (<[Message_Room m := AddMessage m room]> (rooms h)) h))
    as (_ & _ & ->).
Qed.

Lemma sent_broadcastMessage m h room c :
  rooms h !! Message_Room m = Some room → Message_Room m ≠ "" →
  sent (broadcastMessage m h) c =
  sent h c ++ replicate (copies h (elements (Room_Users room)) c) m.
Proof.
  intros Hr Hne. unfold broadcastMessage. rewrite decide_True by done.
  rewrite Hr, sent_broadcastToRoom. unfold members; cbn.
  by rewrite lookup_insert_eq.
Qed.
End broadcast.

(** *** Leaving the current room *)

Section leave_current.
Implicit Types (h : Hub) (c : Client) (m : Message) (s : Stamp) (user : User).

Lemma leaveCurrent_tables s user roomID h :
  clients (leaveCurrent s user roomID h) = clients h ∧
  userClients (leaveCurrent s user roomID h) = userClients h.
Proof.
  unfold leaveCurrent. case_decide; [|done].
  destruct (rooms h !! roomID) as [room|]; [|done].
  by destruct (broadcastToRoom_tables roomID (leaveMessage s user roomID)
    (with_rooms (<[roomID := RemoveUser (User_ID user) room]> (rooms h)) h))
    as (-> & -> & _).
Qed.

(** The room table after the step: the named room without the user, when
    the pointer names a room that exists; untouched otherwise. *)
Lemma rooms_leaveCurrent s user roomID h :
  rooms (leaveCurrent s user roomID h) =
  match rooms h !! roomID with
  | Some room =>
      if decide (roomID ≠ "")
      then <[roomID := RemoveUser (User_ID user) room]> (rooms h)
      else rooms h
  | None => rooms h
  end.
Proof.
  unfold leaveCurrent. case_decide; destruct (rooms h !! roomID) as [room|]; try done.
  by destruct (broadcastToRoom_tables roomID (leaveMessage s user roomID)
    (with_rooms (<[roomID := RemoveUser (User_ID user) room]> (rooms h)) h))
    as (_ & _ & ->).
Qed.

Lemma lookup_rooms_leaveCurrent s user roomID h R :
  rooms (leaveCurrent s user roomID h) !! R =
  if decide (R = roomID ∧ roomID ≠ "")
  then RemoveUser (User_ID user) <$> rooms h !! R
  else rooms h !! R.
Proof.
  rewrite rooms_leaveCurrent.
  destruct (rooms h !! roomID) as [room|] eqn:Hr.
  - destruct (decide (roomID ≠ "")) as [Hne|He].
    + destruct (decide (R = roomID)) as [->|HR].
      * rewrite lookup_insert_eq, decide_True, Hr by done. done.
      * rewrite lookup_insert_ne by done. rewrite decide_False; [done|]. by intros [? _].
    + rewrite decide_False; [done|]. by intros [_ ?].
  - case_decide as Hd; [|done]. destruct Hd as [-> _]. by rewrite Hr.
Qed.

Lemma history_leaveCurrent s user roomID h R :
  history (leaveCurrent s user roomID h) R = history h R.
Proof.
  unfold history. rewrite lookup_rooms_leaveCurrent.
  case_decide; [|done]. by destruct (rooms h !! R).
Qed.

Lemma members_leaveCurrent s user roomID h R :
  members (leaveCurrent s user roomID h) R =
  if decide (R = roomID ∧ roomID ≠ "")
  then members h R ∖ {[User_ID user]}
  else members h R.
Proof.
  unfold members. rewrite lookup_rooms_leaveCurrent.
  case_decide; [|done]. destruct (rooms h !! R); [done|]. cbn.
  by rewrite empty_difference_L.
Qed.

Lemma GetUser_leaveCurrent s user roomID h c :
  GetUser (leaveCurrent s user roomID h) c = GetUser h c.
Proof.
  unfold leaveCurrent. case_decide; [|done].
  destruct (rooms h !! roomID); [|done]. by rewrite GetUser_broadcastToRoom.
Qed.

Lemma GetRoomID_leaveCurrent s user roomID h c :
  GetRoomID (leaveCurrent s user roomID h) c = GetRoomID h c.
Proof.
  unfold leaveCurrent. case_decide; [|done].
  destruct (rooms h !! roomID); [|done]. by rewrite GetRoomID_broadcastToRoom.
Qed.

(** The step sends nothing but copies of its leave message. *)
Lemma sent_leaveCurrent s user roomID h c :
  ∃ k, sent (leaveCurrent s user roomID h) c =
       sent h c ++ replicate k (leaveMessage s user roomID).
Proof.
  unfold leaveCurrent. case_decide; [|exists 0; by rewrite app_nil_r].
  destruct (rooms h !! roomID); [|exists 0; by rewrite app_nil_r].
  rewrite sent_broadcastToRoom. eauto.
Qed.
End leave_current.

(** *** Joining and leaving a room *)

Section join_leave.
Implicit Types (h : Hub) (c : Client) (m : Message) (s : Stamp) (op : RoomOperation).

Lemma replay_tables c (l : list Message) h :
  clients (foldl (λ h' msg, SendMessage c msg h') h l) = clients h ∧
  userClients (foldl (λ h' msg, SendMessage c msg h') h l) = userClients h ∧
  rooms (foldl (λ h' msg, SendMessage c msg h') h l) = rooms h.
Proof.
  revert h. induction l as [|m l IH]; intros h; [done|]. cbn.
  by destruct (IH (SendMessage c m h)) as (-> & -> & ->).
Qed.

Lemma GetUser_replay c (l : list Message) h c' :
  GetUser (foldl (λ h' msg, SendMessage c msg h') h l) c' = GetUser h c'.
Proof.
  revert h. induction l as [|m l IH]; intros h; [done|]. cbn.
  by rewrite IH, GetUser_SendMessage.
Qed.

Lemma GetRoomID_replay c (l : list Message) h c' :
  GetRoomID (foldl (λ h' msg, SendMessage c msg h') h l) c' = GetRoomID h c'.
Proof.
  revert h. induction l as [|m l IH]; intros h; [done|]. cbn.
  by rewrite IH, GetRoomID_SendMessage.
Qed.

(** The replay loop hands the list to [c], in order, and to nobody
    else. *)
Lemma sent_replay c (l : list Message) h c' :
  sent (foldl (λ h' msg, SendMessage c msg h') h l) c' =
  sent h c' ++ (if decide (c' = c) then l else []).
Proof.
  revert h. induction l as [|m l IH]; intros h.
  { cbn. case_decide; by rewrite app_nil_r. }
  cbn [foldl]. rewrite IH, sent_SendMessage.
  case_decide; [subst; by rewrite <-app_assoc | done].
Qed.

Lemma handleJoinRoom_tables sl sj op h :
  clients (handleJoinRoom sl sj op h) = clients h ∧
  userClients (handleJoinRoom sl sj op h) = userClients h.
Proof.
  unfold handleJoinRoom. cbv zeta.
  match goal with |- context [foldl _ ?h4 ?l] =>
    destruct (replay_tables (Op_Client op) l h4) as (-> & -> & _) end.
  match goal with |- context [broadcastToRoom ?r ?m ?h3] =>
    destruct (broadcastToRoom_tables r m h3) as (-> & -> & _) end.
  cbn. apply leaveCurrent_tables.
Qed.

(** The room table after a join: the current room is left, then the
    named room (created when missing) gains the user. *)
Lemma rooms_handleJoinRoom sl sj op h :
  let h1 := leaveCurrent sl (GetUser h (Op_Client op)) (GetRoomID h (Op_Client op)) h in
  rooms (handleJoinRoom sl sj op h) =
  <[Op_RoomID op :=
      AddUser (User_ID (GetUser h (Op_Client op)))
        (default (NewRoom (Op_RoomID op) (Op_RoomID op)) (rooms h1 !! Op_RoomID op))]>
    (rooms h1).
Proof.
  unfold handleJoinRoom. cbv zeta.
  match goal with |- context [foldl _ ?h4 ?l] =>
    destruct (replay_tables (Op_Client op) l h4) as (_ & _ & ->) end.
  match goal with |- context [broadcastToRoom ?r ?m ?h3] =>
    destruct (broadcastToRoom_tables r m h3) as (_ & _ & ->) end.
  cbn. by destruct (rooms _ !! Op_RoomID op).
Qed.

Lemma history_handleJoinRoom sl sj op h R :
  history (handleJoinRoom sl sj op h) R = history h R.
Proof.
  unfold history at 1. rewrite rooms_handleJoinRoom. cbv zeta.
  destruct (decide (R = Op_RoomID op)) as [->|HR].
  - rewrite lookup_insert_eq. cbn.
    rewrite <-(history_leaveCurrent sl (GetUser h (Op_Client op))
                 (GetRoomID h (Op_Client op)) h (Op_RoomID op)).
    unfold history. by destruct (rooms _ !! Op_RoomID op).
  - rewrite lookup_insert_ne by done. apply history_leaveCurrent.
Qed.

Lemma User_ID_handleJoinRoom sl sj op h c :
  User_ID (GetUser (handleJoinRoom sl sj op h) c) = User_ID (GetUser h c).
Proof.
  unfold handleJoinRoom. cbv zeta.
  rewrite GetUser_replay, GetUser_broadcastToRoom, User_ID_SetRoomID,
    User_ID_SetUserRoom.
  change (User_ID (GetUser (leaveCurrent sl (GetUser h (Op_Client op))
            (GetRoomID h (Op_Client op)) h) c) = User_ID (GetUser h c)).
  by rewrite GetUser_leaveCurrent.
Qed.

(** What a join sends: copies of the leave message of the old room,
    copies of the join message, and then, to the joining client alone,
    the history of the room it joins. *)
Lemma sent_handleJoinRoom sl sj op h c :
  ∃ k1 k2,
    sent (handleJoinRoom sl sj op h) c =
    sent h c
    ++ replicate k1 (leaveMessage sl (GetUser h (Op_Client op)) (GetRoomID h (Op_Client op)))
    ++ replicate k2 (joinMessage sj (GetUser h (Op_Client op)) (Op_RoomID op))
    ++ (if decide (c = Op_Client op) then history h (Op_RoomID op) else []).
Proof.
  destruct (sent_leaveCurrent sl (GetUser h (Op_Client op))
              (GetRoomID h (Op_Client op)) h c) as [k1 Hk1].
  unfold handleJoinRoom. cbv zeta.
  rewrite sent_replay, sent_broadcastToRoom, sent_SetRoomID, sent_SetUserRoom.
  match goal with |- context [replicate ?k (joinMessage _ _ _)] => exists k1, k end.
  change (sent (with_rooms ?rs ?h1) c) with (sent h1 c).
  rewrite Hk1, <-!app_assoc. do 3 f_equal.
  case_decide; [|done]. cbn.
  rewrite <-(history_leaveCurrent sl (GetUser h (Op_Client op))
               (GetRoomID h (Op_Client op)) h (Op_RoomID op)).
  unfold history. by destruct (rooms _ !! Op_RoomID op).
Qed.

Lemma handleLeaveRoom_missing s op h :
  rooms h !! Op_RoomID op = None → handleLeaveRoom s op h = h.
Proof. intros Hr. unfold handleLeaveRoom. by rewrite Hr. Qed.

Lemma handleLeaveRoom_tables s op h :
  clients (handleLeaveRoom s op h) = clients h ∧
  userClients (handleLeaveRoom s op h) = userClients h.
Proof.
  unfold handleLeaveRoom. destruct (rooms h !! Op_RoomID op); [|done].
  match goal with |- context [broadcastToRoom ?r ?m ?h3] =>
    by destruct (broadcastToRoom_tables r m h3) as (-> & -> & _) end.
Qed.

(** The room table after a leave: the named room, when it exists, is
    without the user; nothing else changes. *)
Lemma rooms_handleLeaveRoom s op h :
  rooms (handleLeaveRoom s op h) =
  match rooms h !! Op_RoomID op with
  | Some room =>
      <[Op_RoomID op := RemoveUser (User_ID (GetUser h (Op_Client op))) room]> (rooms h)
  | None => rooms h
  end.
Proof.
  unfold handleLeaveRoom. destruct (rooms h !! Op_RoomID op); [|done].
  match goal with |- context [broadcastToRoom ?r ?m ?h3] =>
    by destruct (broadcastToRoom_tables r m h3) as (_ & _ & ->) end.
Qed.


Lemma User_ID_handleLeaveRoom s op h c :
  User_ID (GetUser (handleLeaveRoom s op h) c) = User_ID (GetUser h c).
Proof.
  unfold handleLeaveRoom. destruct (rooms h !! Op_RoomID op); [|done].
  by rewrite GetUser_broadcastToRoom, User_ID_SetRoomID, User_ID_SetUserRoom.
Qed.

(** What a leave sends: copies of its leave message, one per member left
    in the room that is routed to the client. *)
Lemma sent_handleLeaveRoom s op h c :
  sent (handleLeaveRoom s op h) c =
  sent h c ++
  replicate
    (copies h (elements (members h (Op_RoomID op) ∖ {[User_ID (GetUser h (Op_Client op))]})) c)
    (leaveMessage s (GetUser h (Op_Client op)) (Op_RoomID op)).
Proof.
  unfold handleLeaveRoom, members.
  destruct (rooms h !! Op_RoomID op) as [room|] eqn:Hr.
  - rewrite sent_broadcastToRoom, sent_SetRoomID, sent_SetUserRoom.
    unfold members; cbn. by rewrite lookup_insert_eq.
  - rewrite empty_difference_L, elements_empty. cbn. by rewrite app_nil_r.
Qed.
End join_leave.

(** *** Registration *)

Section registration.
Implicit Types (h : Hub) (c : Client) (s : Stamp).

Lemma registerClient_tables s1 s2 c h :
  clients (registerClient s1 s2 c h) = {[c]} ∪ clients h ∧
  userClients (registerClient s1 s2 c h) =
    <[User_ID (GetUser h c) := c]> (userClients h) ∧
  rooms (registerClient s1 s2 c h) = rooms h.
Proof. done. Qed.

Lemma GetUser_registerClient s1 s2 c h c' :
  GetUser (registerClient s1 s2 c h) c' = GetUser h c'.
Proof.
  unfold registerClient. cbv zeta. by rewrite !GetUser_SendMessage.
Qed.

(** Registration sends the welcome message and the room list to the
    registering client, and nothing to anybody else. *)
Lemma sent_registerClient s1 s2 c h c' :
  sent (registerClient s1 s2 c h) c' =
  sent h c' ++
  (if decide (c' = c)
   then [welcomeMessage s1; systemMessage s2 MessageTypeSystem (getRoomsList h) ""]
   else []).
Proof.
  unfold registerClient. cbv zeta. rewrite !sent_SendMessage.
  case_decide as Hc; [subst|by rewrite app_nil_r].
  rewrite decide_True by done. by rewrite <-app_assoc.
Qed.

Lemma unregisterClient_absent s c h :
  c ∉ clients h → unregisterClient s c h = h.
Proof. intros Hc. unfold unregisterClient. by rewrite decide_False. Qed.

Lemma unregisterClient_tables s c h :
  c ∈ clients h →
  clients (unregisterClient s c h) = clients h ∖ {[c]} ∧
  userClients (unregisterClient s c h) = delete (User_ID (GetUser h c)) (userClients h).
Proof.
  intros Hc. unfold unregisterClient. rewrite decide_True by done. cbn.
  by destruct (leaveCurrent_tables s (GetUser h c) (GetRoomID h c) h) as (-> & ->).
Qed.

Lemma GetUser_unregisterClient s c h c' :
  GetUser (unregisterClient s c h) c' = GetUser h c'.
Proof.
  unfold unregisterClient. case_decide; [|done].
  apply (GetUser_leaveCurrent s (GetUser h c) (GetRoomID h c) h c').
Qed.


Lemma sent_unregisterClient s c h c' :
  ∃ k, sent (unregisterClient s c h) c' =
       sent h c' ++ replicate k (leaveMessage s (GetUser h c) (GetRoomID h c)).
Proof.
  unfold unregisterClient. case_decide; [|exists 0; by rewrite app_nil_r].
  apply (sent_leaveCurrent s (GetUser h c) (GetRoomID h c) h c').
Qed.
End registration.

(** *** Runs *)

Section runs.
Implicit Types (h : Hub) (c : Client) (r : Request) (rs : list Request).


(** No request takes back what a client was sent. *)
Lemma step_sent_prefix h r c : sent h c `prefix_of` sent (step h r) c.
Proof.
  destruct r as [c0 s1 s2|c0 s|m|pm|op sl sj|op s]; cbn [step].
  - rewrite sent_registerClient. by eexists.
  - destruct (sent_unregisterClient s c0 h c) as [k ->]. by eexists.
  - unfold broadcastMessage. case_decide; [|done].
    rewrite sent_broadcastToRoom.
    destruct (rooms h !! Message_Room m); by eexists.
  - unfold sendPrivateMessage. destruct (userClients h !! PM_UserID pm); [|done].
    rewrite sent_SendMessage. case_decide; [subst; by eexists | done].
  - destruct (sent_handleJoinRoom sl sj op h c) as (k1 & k2 & ->). by eexists.
  - rewrite sent_handleLeaveRoom. by eexists.
Qed.

Lemma serve_sent_prefix rs h c : sent h c `prefix_of` sent (serve h rs) c.
Proof.
  revert h. induction rs as [|r rs IH]; intros h; [done|]. cbn.
  etrans; [apply step_sent_prefix | apply IH].
Qed.

Lemma step_User_ID h r c : User_ID (GetUser (step h r) c) = User_ID (GetUser h c).
Proof.
  destruct r as [c0 s1 s2|c0 s|m|pm|op sl sj|op s]; cbn [step].
  - by rewrite GetUser_registerClient.
  - by rewrite GetUser_unregisterClient.
  - unfold broadcastMessage. case_decide; [|done].
    rewrite GetUser_broadcastToRoom. by destruct (rooms h !! Message_Room m).
  - unfold sendPrivateMessage. destruct (userClients h !! PM_UserID pm); [|done].
    by rewrite GetUser_SendMessage.
  - apply User_ID_handleJoinRoom.
  - apply User_ID_handleLeaveRoom.
Qed.


(** Routing stays well formed along every run. *)
Lemma step_handles_wf h r : handles_wf h → handles_wf (step h r).
Proof.
  intros Hwf u c Hu. rewrite step_User_ID.
  destruct r as [c0 s1 s2|c0 s|m|pm|op sl sj|op s]; cbn [step] in Hu.
  - destruct (registerClient_tables s1 s2 c0 h) as (_ & Hut & _).
    rewrite Hut in Hu. apply lookup_insert_Some in Hu as [[<- <-]|[_ Hu]]; [done|].
    by apply Hwf.
  - destruct (decide (c0 ∈ clients h)) as [Hc|Hc].
    + destruct (unregisterClient_tables s c0 h Hc) as (_ & Hut).
      rewrite Hut in Hu. apply lookup_delete_Some in Hu as [_ Hu]. by apply Hwf.
    + rewrite unregisterClient_absent in Hu by done. by apply Hwf.
  - destruct (broadcastMessage_tables m h) as (_ & Hut).
    rewrite Hut in Hu. by apply Hwf.
  - unfold sendPrivateMessage in Hu.
    destruct (userClients h !! PM_UserID pm); by apply Hwf.
  - destruct (handleJoinRoom_tables sl sj op h) as (_ & Hut).
    rewrite Hut in Hu. by apply Hwf.
  - destruct (handleLeaveRoom_tables s op h) as (_ & Hut).
    rewrite Hut in Hu. by apply Hwf.
Qed.

Lemma serve_handles_wf rs h : handles_wf h → handles_wf (serve h rs).
Proof.
  revert h. induction rs as [|r rs IH]; intros h Hwf; [done|].
  cbn. by apply IH, step_handles_wf.
Qed.

(** X2: a hub started by [Run] over a fresh [NewHub] state (with whatever
    connections the transport holds) has well-formed routing for good:
    in every state of every run, each entry of the routing table leads to
    a client bound to that user id. *)
Lemma Run_handles_wf rs h : userClients h = ∅ → handles_wf (Run h rs).
Proof.
  intros He. apply serve_handles_wf. intros u c Hu.
  cbn in Hu. rewrite He in Hu. by apply lookup_empty_Some in Hu.
Qed.
End runs.

(** *** I2 along runs that register one client per user id *)

Section routing_invariant.
Variables (ids : Client → string) (cs : list Client).
Hypothesis ids_inj : ∀ c1 c2, c1 ∈ cs → c2 ∈ cs → ids c1 = ids c2 → c1 = c2.

Lemma routed_matches h : routed ids cs h → routing_matches_clients h.
Proof.
  intros (Hid & Hcl & Hut). unfold routing_matches_clients, registered_ids.
  apply set_eq. intros u. rewrite elem_of_dom, elem_of_map. split.
  - intros [c Hc]. apply Hut in Hc as [Hin <-]. exists c. by rewrite Hid.
  - intros (c & -> & Hin). rewrite Hid. destruct (Hcl c Hin) as [_ Hl]. by eexists.
Qed.

Lemma routed_same_tables h h' :
  clients h' = clients h → userClients h' = userClients h →
  (∀ c, User_ID (GetUser h' c) = User_ID (GetUser h c)) →
  routed ids cs h → routed ids cs h'.
Proof.
  intros Hc Hu Hi (Hid & Hcl & Hut). unfold routed. rewrite Hc, Hu.
  split_and!; [|done..]. intros c. by rewrite Hi.
Qed.

Lemma registerClient_routed s1 s2 c0 h :
  c0 ∈ cs → routed ids cs h → routed ids cs (registerClient s1 s2 c0 h).
Proof.
  intros Hc0 (Hid & Hcl & Hut).
  destruct (registerClient_tables s1 s2 c0 h) as (Hc & Hu & _).
  unfold routed. rewrite Hc, Hu, Hid. split_and!.
  - intros c. by rewrite GetUser_registerClient.
  - intros c Hin. apply elem_of_union in Hin as [Hin|Hin].
    + apply elem_of_singleton in Hin as ->. split; [done|apply lookup_insert_eq].
    + destruct (Hcl c Hin) as [Hcs Hl]. split; [done|].
      destruct (decide (ids c0 = ids c)) as [He|Hne].
      * rewrite (ids_inj c0 c Hc0 Hcs He). apply lookup_insert_eq.
      * by rewrite lookup_insert_ne.
  - intros u c Hl. apply lookup_insert_Some in Hl as [[<- <-]|[_ Hl]].
    + split; [|done]. apply elem_of_union. left. by apply elem_of_singleton.
    + destruct (Hut u c Hl) as [Hin ?]. split; [|done]. apply elem_of_union. by right.
Qed.

Lemma unregisterClient_routed s c0 h :
  routed ids cs h → routed ids cs (unregisterClient s c0 h).
Proof.
  intros Hr. destruct (decide (c0 ∈ clients h)) as [Hc0|Hc0];
    [|by rewrite unregisterClient_absent].
  destruct Hr as (Hid & Hcl & Hut).
  destruct (unregisterClient_tables s c0 h Hc0) as (Hc & Hu).
  unfold routed. rewrite Hc, Hu, Hid. split_and!.
  - intros c. by rewrite GetUser_unregisterClient.
  - intros c Hin. apply elem_of_difference in Hin as [Hin Hne].
    destruct (Hcl c Hin) as [Hcs Hl]. split; [done|].
    rewrite lookup_delete_ne; [done|]. intros He. apply Hne, elem_of_singleton.
    symmetry. apply ids_inj; [by apply Hcl|done..].
  - intros u c Hl. apply lookup_delete_Some in Hl as [Hne Hl].
    destruct (Hut u c Hl) as [Hin <-]. split; [|done].
    apply elem_of_difference. split; [done|].
    intros He. apply elem_of_singleton in He. by subst.
Qed.

Lemma step_routed h r :
  (∀ c, c ∈ registered_by [r] → c ∈ cs) → routed ids cs h → routed ids cs (step h r).
Proof.
  intros Hreg Hr.
  destruct r as [c0 s1 s2|c0 s|m|pm|op sl sj|op s]; cbn [step].
  - apply registerClient_routed; [|done]. apply Hreg. cbn. by left.
  - by apply unregisterClient_routed.
  - destruct (broadcastMessage_tables m h) as [Hc Hu].
    apply (routed_same_tables h); [done..| |done].
    intros c. apply (step_User_ID h (ReqBroadcast m)).
  - apply (routed_same_tables h); [| | |done].
    + unfold sendPrivateMessage. by destruct (userClients h !! PM_UserID pm).
    + unfold sendPrivateMessage. by destruct (userClients h !! PM_UserID pm).
    + intros c. apply (step_User_ID h (ReqSendToUser pm)).
  - destruct (handleJoinRoom_tables sl sj op h) as [Hc Hu].
    apply (routed_same_tables h); [done..| |done].
    intros c. apply User_ID_handleJoinRoom.
  - destruct (handleLeaveRoom_tables s op h) as [Hc Hu].
    apply (routed_same_tables h); [done..| |done].
    intros c. apply User_ID_handleLeaveRoom.
Qed.

Lemma serve_routed rs h :
  (∀ c, c ∈ registered_by rs → c ∈ cs) → routed ids cs h → routed ids cs (serve h rs).
Proof.
  revert h. induction rs as [|r rs IH]; intros h Hreg Hr; [done|].
  cbn. apply IH.
  - intros c Hc. apply Hreg. unfold registered_by in *.
    destruct r; cbn; [by right|done..].
  - apply step_routed; [|done]. intros c Hc. apply Hreg.
    unfold registered_by in *. destruct r; cbn in *;
      try (by apply elem_of_nil in Hc).
    apply elem_of_cons in Hc as [->|Hc]; [by left|by apply elem_of_nil in Hc].
Qed.
End routing_invariant.

(** X15: I2 holds in every state of a run that starts with nobody
    registered and registers at most one client per user id: the keys of
    the routing table are the user ids of the registered clients. *)
Lemma routing_matches_clients_distinct_ids (rs : list Request) (h : Hub) :
  clients h = ∅ → userClients h = ∅ → distinct_ids h (registered_by rs) →
  routing_matches_clients (Run h rs).
Proof.
  intros Hc Hu Hd.
  apply (routed_matches (λ c, User_ID (GetUser h c)) (registered_by rs)).
  apply serve_routed; [exact Hd|done|].
  unfold routed, Run_init; cbn. rewrite Hc, Hu. split_and!.
  - done.
  - intros c Hin. by apply elem_of_empty in Hin.
  - intros u c Hl. by apply lookup_empty_Some in Hl.
Qed.

(** *** I1 along tidy runs *)

Section membership.
Implicit Types (h : Hub) (c : Client) (s : Stamp) (op : RoomOperation).

Lemma members_handleJoinRoom sl sj op h R :
  let h1 := leaveCurrent sl (GetUser h (Op_Client op)) (GetRoomID h (Op_Client op)) h in
  members (handleJoinRoom sl sj op h) R =
  if decide (R = Op_RoomID op)
  then {[User_ID (GetUser h (Op_Client op))]} ∪ members h1 R
  else members h1 R.
Proof.
  intros h1. unfold members at 1. rewrite rooms_handleJoinRoom. fold h1.
  case_decide as HR.
  - subst R. rewrite lookup_insert_eq. unfold members.
    destruct (rooms h1 !! Op_RoomID op); done.
  - by rewrite lookup_insert_ne.
Qed.

Lemma GetRoomID_handleJoinRoom sl sj op h c :
  GetRoomID (handleJoinRoom sl sj op h) c =
  if decide (c = Op_Client op) then Op_RoomID op else GetRoomID h c.
Proof.
  unfold handleJoinRoom. cbv zeta.
  rewrite GetRoomID_replay, GetRoomID_broadcastToRoom, GetRoomID_SetRoomID.
  case_decide; [done|]. rewrite GetRoomID_SetUserRoom.
  apply (GetRoomID_leaveCurrent sl (GetUser h (Op_Client op))
           (GetRoomID h (Op_Client op)) h c).
Qed.

Lemma members_handleLeaveRoom s op h R :
  members (handleLeaveRoom s op h) R =
  if decide (R = Op_RoomID op)
  then members h R ∖ {[User_ID (GetUser h (Op_Client op))]}
  else members h R.
Proof.
  unfold members. rewrite rooms_handleLeaveRoom.
  destruct (rooms h !! Op_RoomID op) as [room|] eqn:Hr.
  - case_decide as HR.
    + subst R. by rewrite lookup_insert_eq, Hr.
    + by rewrite lookup_insert_ne.
  - case_decide as HR; [|done]. subst R. by rewrite Hr, empty_difference_L.
Qed.

Lemma GetRoomID_handleLeaveRoom s op h c room :
  rooms h !! Op_RoomID op = Some room →
  GetRoomID (handleLeaveRoom s op h) c =
  if decide (c = Op_Client op) then "" else GetRoomID h c.
Proof.
  intros Hr. unfold handleLeaveRoom. rewrite Hr.
  rewrite GetRoomID_broadcastToRoom, GetRoomID_SetRoomID.
  case_decide; [done|]. by rewrite GetRoomID_SetUserRoom.
Qed.

Lemma members_unregisterClient s c h R u :
  u ∈ members (unregisterClient s c h) R → u ∈ members h R.
Proof.
  unfold unregisterClient. case_decide; [|done]. unfold members at 1. cbn.
  change (u ∈ members (leaveCurrent s (GetUser h c) (GetRoomID h c) h) R → u ∈ members h R).
  rewrite members_leaveCurrent. case_decide; [|done].
  intros Hu. by apply elem_of_difference in Hu as [Hu _].
Qed.

Lemma GetRoomID_unregisterClient s c h c' :
  GetRoomID (unregisterClient s c h) c' = GetRoomID h c'.
Proof.
  unfold unregisterClient. case_decide; [|done].
  apply (GetRoomID_leaveCurrent s (GetUser h c) (GetRoomID h c) h c').
Qed.

Lemma members_broadcastMessage m h R :
  members (broadcastMessage m h) R = members h R.
Proof.
  destruct (rooms h !! Message_Room m) as [room|] eqn:Hr;
    [|by rewrite broadcastMessage_missing].
  destruct (decide (Message_Room m ≠ "")) as [Hne|He];
    [|unfold broadcastMessage; by rewrite decide_False].
  unfold members. rewrite (rooms_broadcastMessage _ _ _ Hr Hne).
  destruct (decide (R = Message_Room m)) as [->|HR].
  - by rewrite lookup_insert_eq, Hr.
  - by rewrite lookup_insert_ne.
Qed.

Lemma GetRoomID_broadcastMessage m h c :
  GetRoomID (broadcastMessage m h) c = GetRoomID h c.
Proof.
  unfold broadcastMessage. case_decide; [|done].
  rewrite GetRoomID_broadcastToRoom. by destruct (rooms h !! Message_Room m).
Qed.
End membership.

Section room_invariant.
Variables (ids : Client → string) (cs : list Client).
Hypothesis ids_inj : ∀ c1 c2, c1 ∈ cs → c2 ∈ cs → ids c1 = ids c2 → c1 = c2.

Lemma housed_single_room h : housed ids cs h → single_room h.
Proof.
  intros (_ & Hm) u R1 R2 H1 H2.
  destruct (Hm u R1 H1) as (_ & c1 & Hc1 & Hi1 & <-).
  destruct (Hm u R2 H2) as (_ & c2 & Hc2 & Hi2 & <-).
  by rewrite (ids_inj c1 c2 Hc1 Hc2) by congruence.
Qed.

Lemma housed_same h h' :
  (∀ R, members h' R = members h R) → (∀ c, GetRoomID h' c = GetRoomID h c) →
  (∀ c, User_ID (GetUser h' c) = User_ID (GetUser h c)) →
  housed ids cs h → housed ids cs h'.
Proof.
  intros Hm Hp Hi (Hid & Hh). split; [intros c; by rewrite Hi|].
  intros u R Hu. rewrite Hm in Hu. destruct (Hh u R Hu) as (? & c & ? & ? & ?).
  split; [done|]. exists c. by rewrite Hp.
Qed.

Lemma handleJoinRoom_housed sl sj op h :
  Op_Client op ∈ cs → Op_RoomID op ≠ "" →
  housed ids cs h → housed ids cs (handleJoinRoom sl sj op h).
Proof.
  intros Hc HR (Hid & Hh). split; [intros c; by rewrite User_ID_handleJoinRoom|].
  intros u R Hu. rewrite members_handleJoinRoom in Hu. cbv zeta in Hu.
  rewrite members_leaveCurrent, Hid in Hu.
  assert (u ∈ members h R → ids (Op_Client op) = u →
          ¬ (R = GetRoomID h (Op_Client op) ∧ GetRoomID h (Op_Client op) ≠ "") →
          False) as Hold.
  { intros Hin Hi Hn. destruct (Hh u R Hin) as (HRne & c' & Hc' & Hi' & Hp').
    rewrite (ids_inj c' (Op_Client op)) in Hp' by (done || congruence).
    apply Hn. split; [done|]. by rewrite Hp'. }
  assert (u ∈ members h R → ids (Op_Client op) ≠ u →
          R ≠ "" ∧ ∃ c, c ∈ cs ∧ ids c = u ∧
                        GetRoomID (handleJoinRoom sl sj op h) c = R) as Hother.
  { intros Hin Hne. destruct (Hh u R Hin) as (HRne & c' & Hc' & Hi' & Hp').
    split; [done|]. exists c'. split_and!; [done..|].
    rewrite GetRoomID_handleJoinRoom, decide_False; [done|]. intros ->. congruence. }
  assert (ids (Op_Client op) = u → R = Op_RoomID op →
          R ≠ "" ∧ ∃ c, c ∈ cs ∧ ids c = u ∧
                        GetRoomID (handleJoinRoom sl sj op h) c = R) as Hself.
  { intros Hi ->. split; [done|]. exists (Op_Client op). split_and!; [done..|].
    by rewrite GetRoomID_handleJoinRoom, decide_True. }
  destruct (decide (ids (Op_Client op) = u)) as [Hi|Hi].
  - destruct (decide (R = Op_RoomID op)) as [HRo|HRo]; [by apply Hself|].
    exfalso. destruct (decide (R = GetRoomID h (Op_Client op) ∧
                               GetRoomID h (Op_Client op) ≠ "")) as [Hd|Hd].
    + apply elem_of_difference in Hu as [_ Hu]. apply Hu, elem_of_singleton. done.
    + by apply Hold.
  - apply Hother; [|done].
    destruct (decide (R = Op_RoomID op)) as [HRo|HRo].
    + apply elem_of_union in Hu as [Hu|Hu].
      { apply elem_of_singleton in Hu. congruence. }
      case_decide; [by apply elem_of_difference in Hu as [Hu _]|done].
    + case_decide; [by apply elem_of_difference in Hu as [Hu _]|done].
Qed.

Lemma handleLeaveRoom_housed s op h :
  Op_Client op ∈ cs →
  Op_RoomID op = GetRoomID h (Op_Client op) ∨ rooms h !! Op_RoomID op = None →
  housed ids cs h → housed ids cs (handleLeaveRoom s op h).
Proof.
  intros Hc Htidy Hhoused.
  destruct (rooms h !! Op_RoomID op) as [room|] eqn:Hr;
    [|by rewrite handleLeaveRoom_missing].
  destruct Htidy as [Hcur|?]; [|done].
  destruct Hhoused as (Hid & Hh).
  split; [intros c; by rewrite User_ID_handleLeaveRoom|].
  intros u R Hu. rewrite members_handleLeaveRoom, Hid in Hu.
  assert (u ∈ members h R ∧ (R = Op_RoomID op → u ≠ ids (Op_Client op))) as [Hin Hne].
  { case_decide; [|done]. apply elem_of_difference in Hu as [Hu Hn].
    split; [done|]. intros _ ->. by apply Hn, elem_of_singleton. }
  destruct (Hh u R Hin) as (HRne & c' & Hc' & Hi' & Hp'). split; [done|].
  exists c'. split_and!; [done..|].
  rewrite (GetRoomID_handleLeaveRoom s op h c' room Hr), decide_False; [done|].
  intros ->. apply Hne; [|done]. by rewrite Hcur.
Qed.

Lemma step_housed h r :
  (∀ c, c ∈ moved_by [r] → c ∈ cs) → tidy h r →
  housed ids cs h → housed ids cs (step h r).
Proof.
  intros Hmv Ht Hh.
  destruct r as [c0 s1 s2|c0 s|m|pm|op sl sj|op s]; cbn [step].
  - apply (housed_same h); [done| |intros c; by rewrite GetUser_registerClient|done].
    intros c. unfold registerClient. cbv zeta. by rewrite !GetRoomID_SendMessage.
  - destruct Hh as (Hid & Hh). split; [intros c; by rewrite GetUser_unregisterClient|].
    intros u R Hu. apply members_unregisterClient in Hu.
    destruct (Hh u R Hu) as (? & c & ? & ? & ?). split; [done|].
    exists c. by rewrite GetRoomID_unregisterClient.
  - apply (housed_same h); [apply members_broadcastMessage
                           |apply GetRoomID_broadcastMessage| |done].
    intros c. apply (step_User_ID h (ReqBroadcast m)).
  - apply (housed_same h); [| | |done].
    + intros R. unfold sendPrivateMessage. by destruct (userClients h !! PM_UserID pm).
    + intros c. unfold sendPrivateMessage.
      destruct (userClients h !! PM_UserID pm); [apply GetRoomID_SendMessage|done].
    + intros c. apply (step_User_ID h (ReqSendToUser pm)).
  - apply handleJoinRoom_housed; [|done..]. apply Hmv. cbn. by left.
  - apply handleLeaveRoom_housed; [|done..]. apply Hmv. cbn. by left.
Qed.

Lemma serve_housed rs h :
  (∀ c, c ∈ moved_by rs → c ∈ cs) → tidy_run h rs →
  housed ids cs h → housed ids cs (serve h rs).
Proof.
  revert h. induction rs as [|r rs IH]; intros h Hmv Ht Hh; [done|].
  destruct Ht as [Ht Hts]. cbn. apply IH; [|done|].
  - intros c Hc. apply Hmv. unfold moved_by in *.
    destruct r; cbn; try done; by right.
  - apply step_housed; [|done..]. intros c Hc. apply Hmv.
    unfold moved_by in *. destruct r; cbn in *;
      try (by apply elem_of_nil in Hc);
      (apply elem_of_cons in Hc as [->|Hc]; [by left|by apply elem_of_nil in Hc]).
Qed.
End room_invariant.

(** X16: I1 holds in every state of a run that starts without rooms,
    moves at most one client per user id, and is tidy (its joins name a
    room and its leaves name the room the client is in): no user id is a
    member of two rooms. *)
Lemma single_room_tidy_runs (rs : list Request) (h : Hub) :
  rooms h = ∅ → distinct_ids h (moved_by rs) → tidy_run (Run_init h) rs →
  single_room (Run h rs).
Proof.
  intros Hr Hd Ht.
  apply (housed_single_room (λ c, User_ID (GetUser h c)) (moved_by rs) Hd).
  apply serve_housed; [done..|]. split; [done|].
  intros u R Hu. unfold members, Run_init in Hu; cbn in Hu. rewrite Hr in Hu.
  destruct (decide (R = "general")) as [->|HR].
  - rewrite lookup_insert_eq in Hu. by apply elem_of_empty in Hu.
  - rewrite lookup_insert_ne, lookup_empty in Hu by done. by apply elem_of_empty in Hu.
Qed.

(** Two runs to which the two lemmas apply: Alice and Bob register and
    Alice unregisters; Alice moves from "lobby" to "games", leaving the
    room she is in, and Bob joins her. *)
Example routing_matches_clients_two_users :
  routing_matches_clients
    (Run connected [ReqRegister 1 (stamp 1) (stamp 2); ReqRegister 2 (stamp 3) (stamp 4);
                    ReqUnregister 1 (stamp 5)]).
Proof.
  apply routing_matches_clients_distinct_ids; [reflexivity..|].
  intros c1 c2 H1 H2 He. cbn in H1, H2.
  apply elem_of_cons in H1 as [->|H1]; [|apply list_elem_of_singleton in H1 as ->];
    (apply elem_of_cons in H2 as [->|H2]; [|apply list_elem_of_singleton in H2 as ->]);
    first [reflexivity | vm_compute in He; discriminate He].
Defined.

Example single_room_moving_users :
  single_room
    (Run connected [ReqJoinRoom (mkRoomOperation 1 "lobby") (stamp 1) (stamp 2);
                    ReqLeaveRoom (mkRoomOperation 1 "lobby") (stamp 3);
                    ReqJoinRoom (mkRoomOperation 1 "games") (stamp 4) (stamp 5);
                    ReqJoinRoom (mkRoomOperation 2 "games") (stamp 6) (stamp 7)]).
Proof.
  apply single_room_tidy_runs; [reflexivity| |].
  - intros c1 c2 H1 H2 He. cbn in H1, H2.
    assert (∀ c, c ∈ [1; 1; 1; 2] → c = 1 ∨ c = 2) as Hin.
    { intros c Hc. repeat (apply elem_of_cons in Hc as [->|Hc]; [by (left + right)|]).
      by apply elem_of_nil in Hc. }
    destruct (Hin c1 H1) as [->| ->]; destruct (Hin c2 H2) as [->| ->];
      first [reflexivity | vm_compute in He; discriminate He].
  - cbn [tidy_run tidy]. split_and!; try done.
    left. vm_compute. reflexivity.
Defined.

Lemma difference_singleton_twice (X : gset string) (u : string) :
  X ∖ {[u]} ∖ {[u]} = X ∖ {[u]}.
Proof.
  apply set_eq. intros x. rewrite !elem_of_difference. tauto.
Qed.

Lemma difference_singleton_absent (X : gset string) (u : string) :
  u ∉ X → X ∖ {[u]} = X.
Proof.
  intros Hu. apply set_eq. intros x.
  rewrite elem_of_difference, elem_of_singleton. split; [tauto|].
  intros Hx. split; [done|]. by intros ->.
Qed.

Lemma sendPrivateMessage_miss (pm : PrivateMessage) (h : Hub) :
  userClients h !! PM_UserID pm = None → sendPrivateMessage pm h = h.
Proof. intros Hu. unfold sendPrivateMessage. by rewrite Hu. Qed.

(** *** Rooms along a run *)

Section rooms_along_runs.
Implicit Types (h : Hub) (r : Request) (rs : list Request) (R : string).

Lemma broadcasts_to_cons R r rs :
  broadcasts_to R (r :: rs) = broadcasts_to R [r] ++ broadcasts_to R rs.
Proof.
  unfold broadcasts_to. cbn.
  destruct r as [| |m| | |]; try done. by case_decide.
Qed.

(** One request leaves a room in place, under its id and name, and adds
    to its history the message it broadcasts there, if any. *)
Lemma step_room h r R room :
  rooms h !! R = Some room →
  ∃ room', rooms (step h r) !! R = Some room' ∧
           Room_ID room' = Room_ID room ∧ Room_Name room' = Room_Name room ∧
           Room_Messages room' = Room_Messages room ++ broadcasts_to R [r].
Proof.
  intros Hr.
  destruct r as [c0 s1 s2|c0 s|m|pm|op sl sj|op s]; cbn [step].
  - exists room. by rewrite app_nil_r.
  - unfold unregisterClient. case_decide; [|exists room; by rewrite app_nil_r].
    cbn. rewrite lookup_rooms_leaveCurrent, Hr.
    case_decide; eexists; (split; [done|]); by rewrite app_nil_r.
  - unfold broadcasts_to. cbn.
    destruct (decide (Message_Room m = R ∧ R ≠ "")) as [[HR Hne]|Hno].
    + subst R. rewrite (rooms_broadcastMessage _ _ _ Hr Hne), lookup_insert_eq.
      by eexists.
    + exists room. rewrite app_nil_r. split; [|done].
      destruct (decide (Message_Room m ≠ "")) as [Hne|He];
        [|unfold broadcastMessage; by rewrite decide_False].
      destruct (rooms h !! Message_Room m) as [room0|] eqn:Hr0;
        [|by rewrite broadcastMessage_missing].
      rewrite (rooms_broadcastMessage _ _ _ Hr0 Hne), lookup_insert_ne; [done|].
      intros He. apply Hno. split; [done|]. by rewrite <-He.
  - exists room. rewrite app_nil_r. split; [|done].
    unfold sendPrivateMessage. by destruct (userClients h !! PM_UserID pm).
  - rewrite rooms_handleJoinRoom. cbv zeta.
    assert (∃ room1, rooms (leaveCurrent sl (GetUser h (Op_Client op))
                              (GetRoomID h (Op_Client op)) h) !! R = Some room1 ∧
                     Room_ID room1 = Room_ID room ∧ Room_Name room1 = Room_Name room ∧
                     Room_Messages room1 = Room_Messages room) as (room1 & Hr1 & ? & ? & ?).
    { rewrite lookup_rooms_leaveCurrent, Hr. case_decide; by eexists. }
    destruct (decide (R = Op_RoomID op)) as [->|HR].
    + rewrite lookup_insert_eq, Hr1. eexists. split; [done|]. cbn.
      by rewrite app_nil_r.
    + rewrite lookup_insert_ne by done. exists room1. by rewrite app_nil_r.
  - rewrite rooms_handleLeaveRoom.
    destruct (rooms h !! Op_RoomID op) as [room0|] eqn:Hr0;
      [|exists room; by rewrite app_nil_r].
    destruct (decide (R = Op_RoomID op)) as [->|HR].
    + rewrite lookup_insert_eq. eexists. split; [done|]. cbn.
      rewrite app_nil_r. by simplify_eq.
    + rewrite lookup_insert_ne by done. exists room. by rewrite app_nil_r.
Qed.

Lemma serve_room rs h R room :
  rooms h !! R = Some room →
  ∃ room', rooms (serve h rs) !! R = Some room' ∧
           Room_ID room' = Room_ID room ∧ Room_Name room' = Room_Name room ∧
           Room_Messages room' = Room_Messages room ++ broadcasts_to R rs.
Proof.
  revert h room. induction rs as [|r rs IH]; intros h room Hr.
  { exists room. by rewrite app_nil_r. }
  destruct (step_room h r R room Hr) as (room1 & Hr1 & Hi1 & Hn1 & Hm1).
  destruct (IH (step h r) room1 Hr1) as (room' & Hr' & Hi' & Hn' & Hm').
  exists room'. change (serve h (r :: rs)) with (serve (step h r) rs).
  split; [done|]. split_and!; [congruence..|].
  by rewrite Hm', Hm1, (broadcasts_to_cons R r rs), app_assoc.
Qed.

Lemma step_room_keys_wf h r : room_keys_wf h → room_keys_wf (step h r).
Proof.
  intros Hwf k room' Hk.
  destruct (rooms h !! k) as [room|] eqn:Hr.
  - destruct (step_room h r k room Hr) as (room1 & Hr1 & Hi1 & _).
    rewrite Hr1 in Hk. simplify_eq. rewrite Hi1. by apply Hwf.
  - destruct r as [c0 s1 s2|c0 s|m|pm|op sl sj|op s]; cbn [step] in Hk.
    + cbn in Hk. congruence.
    + unfold unregisterClient in Hk. case_decide; [|congruence]. cbn in Hk.
      rewrite lookup_rooms_leaveCurrent, Hr in Hk. by case_decide.
    + destruct (decide (Message_Room m ≠ "")) as [Hne|He];
        [|unfold broadcastMessage in Hk; rewrite decide_False in Hk by done; congruence].
      destruct (rooms h !! Message_Room m) as [room0|] eqn:Hr0;
        [|rewrite broadcastMessage_missing in Hk by done; congruence].
      rewrite (rooms_broadcastMessage _ _ _ Hr0 Hne) in Hk.
      rewrite lookup_insert_ne in Hk by congruence. congruence.
    + unfold sendPrivateMessage in Hk.
      destruct (userClients h !! PM_UserID pm); cbn in Hk; congruence.
    + rewrite rooms_handleJoinRoom in Hk. cbv zeta in Hk.
      destruct (decide (k = Op_RoomID op)) as [->|HR].
      * rewrite lookup_insert_eq, lookup_rooms_leaveCurrent, Hr in Hk.
        case_decide; cbn in Hk; by simplify_eq.
      * rewrite lookup_insert_ne, lookup_rooms_leaveCurrent, Hr in Hk by done.
        by case_decide.
    + rewrite rooms_handleLeaveRoom in Hk.
      destruct (rooms h !! Op_RoomID op) as [room0|] eqn:Hr0; [|congruence].
      rewrite lookup_insert_ne in Hk by congruence. congruence.
Qed.
Lemma serve_room_keys_wf rs h : room_keys_wf h → room_keys_wf (serve h rs).
Proof.
  revert h. induction rs as [|r rs IH]; intros h Hwf; [done|].
  cbn. by apply IH, step_room_keys_wf.
Qed.
End rooms_along_runs.

(** *** The properties of the specification *)

(** C1: a join replays the whole history of the room it joins to the
    joining client and to nobody else, in the original order; the only
    messages the call sends besides are copies of its own leave and join
    notifications, which precede the replay; and whatever later requests
    send to the joining client comes after the replay. *)
Theorem join_replays_history (sl sj : Stamp) (op : RoomOperation) (h : Hub) :
  let c := Op_Client op in
  let leave := leaveMessage sl (GetUser h c) (GetRoomID h c) in
  let join := joinMessage sj (GetUser h c) (Op_RoomID op) in
  let h' := handleJoinRoom sl sj op h in
  (∃ k1 k2, sent h' c =
            sent h c ++ replicate k1 leave ++ replicate k2 join
            ++ history h (Op_RoomID op)) ∧
  (∀ c', c' ≠ c →
         ∃ k1 k2, sent h' c' = sent h c' ++ replicate k1 leave ++ replicate k2 join) ∧
  (∀ rs, sent h' c `prefix_of` sent (serve h' rs) c).
Proof.
  intros c leave join h'. split_and!.
  - destruct (sent_handleJoinRoom sl sj op h c) as (k1 & k2 & Hs).
    exists k1, k2. subst h' leave join c. rewrite Hs. by rewrite decide_True.
  - intros c' Hc'. destruct (sent_handleJoinRoom sl sj op h c') as (k1 & k2 & Hs).
    exists k1, k2. subst h' leave join c. rewrite Hs.
    rewrite decide_False by done. by rewrite app_nil_r.
  - intros rs. apply serve_sent_prefix.
Qed.

(** Bob joins "general" after "hi" was broadcast there: he is sent the
    join notification and then "hi"; Alice is sent the notification only. *)
Example join_replays_history_general :
  let h' := handleJoinRoom (stamp 7) (stamp 8) (mkRoomOperation 2 "general") hi_before_bob in
  history hi_before_bob "general" = [hi] ∧
  sent h' 2 = sent hi_before_bob 2
              ++ [joinMessage (stamp 8) (mkUser "bob" "Bob" "") "general"; hi] ∧
  sent h' 1 = sent hi_before_bob 1
              ++ [joinMessage (stamp 8) (mkUser "bob" "Bob" "") "general"].
Proof. vm_compute. done. Qed.

(** Adding a user to a room it was just removed from gives the room with
    the user added. *)
Lemma AddUser_RemoveUser (uid : string) (room : Room) :
  AddUser uid (RemoveUser uid room) = AddUser uid room.
Proof.
  unfold AddUser, RemoveUser; cbn. f_equal. apply set_eq. intros x.
  rewrite !elem_of_union, elem_of_difference, elem_of_singleton.
  destruct (decide (x = uid)); tauto.
Qed.

(** The room a join finds under the id it names gains the user and is
    otherwise as it was. *)
Lemma rooms_handleJoinRoom_found (sl sj : Stamp) (op : RoomOperation) (h : Hub)
    (room : Room) :
  rooms h !! Op_RoomID op = Some room →
  rooms (handleJoinRoom sl sj op h) !! Op_RoomID op =
  Some (AddUser (User_ID (GetUser h (Op_Client op))) room).
Proof.
  intros Hr. rewrite rooms_handleJoinRoom. cbv zeta.
  rewrite lookup_insert_eq, lookup_rooms_leaveCurrent, Hr.
  case_decide; cbn; [|done]. by rewrite AddUser_RemoveUser.
Qed.

(** The directory has an entry for every room of the table. *)
Lemma listRooms_lookup (h : Hub) (R : string) (room : Room) :
  rooms h !! R = Some room →
  {| entry_id := Room_ID room; entry_name := Room_Name room;
     entry_user_count := size (Room_Users room) |} ∈ listRooms h.
Proof.
  intros Hr. unfold listRooms, GetRooms. apply list_elem_of_fmap.
  exists (R, room). split; [done|]. by apply elem_of_map_to_list.
Qed.

(** C5, as the code has it: a hub that serves requests has been started
    by [Run], and [Run] creates "general" under the name "General Chat"
    before it serves anything.  So in every state of every run the room is
    there: a join of "general" finds it, adds the user and leaves its id,
    its name and its history alone, and the directory lists it as
    [{general, General Chat, n}] with [n] the number of its members, 1
    when nobody else is in it.  The room a join creates, named by its id,
    is the room of an id the table lacks. *)
Theorem Run_join_general_listed (sl sj : Stamp) (c : Client) (rs : list Request)
    (h : Hub) :
  let h1 := Run h rs in
  let uid := User_ID (GetUser h1 c) in
  let h' := handleJoinRoom sl sj (mkRoomOperation c "general") h1 in
  (∃ room,
     rooms h1 !! "general" = Some room ∧
     Room_ID room = "general" ∧ Room_Name room = "General Chat" ∧
     rooms h' !! "general" = Some (AddUser uid room) ∧
     {| entry_id := "general"; entry_name := "General Chat";
        entry_user_count := size ({[uid]} ∪ Room_Users room) |} ∈ listRooms h' ∧
     (Room_Users room ⊆ {[uid]} →
      {| entry_id := "general"; entry_name := "General Chat"; entry_user_count := 1 |}
        ∈ listRooms h')) ∧
  (∀ R, rooms h1 !! R = None →
        rooms (handleJoinRoom sl sj (mkRoomOperation c R) h1) !! R =
        Some {| Room_ID := R; Room_Name := R; Room_Users := {[uid]};
                Room_Messages := [] |}).
Proof.
  intros h1 uid h'. split.
  - destruct (serve_room rs (Run_init h) "general" (NewRoom "general" "General Chat"))
      as (room & Hr & Hid & Hname & _).
    { unfold Run_init; cbn. apply lookup_insert_eq. }
    cbn in Hid, Hname. exists room.
    assert (rooms h' !! "general" = Some (AddUser uid room)) as Hr'.
    { apply (rooms_handleJoinRoom_found sl sj (mkRoomOperation c "general") h1 room Hr). }
    assert ({| entry_id := "general"; entry_name := "General Chat";
               entry_user_count := size ({[uid]} ∪ Room_Users room) |} ∈ listRooms h')
      as Hentry.
    { apply listRooms_lookup in Hr'. cbn in Hr'. by rewrite Hid, Hname in Hr'. }
    split_and!; [done..|].
    intros Hsub. replace 1 with (size ({[uid]} ∪ Room_Users room)); [done|].
    replace ({[uid]} ∪ Room_Users room) with ({[uid]} : gset string).
    + apply size_singleton.
    + apply set_eq. intros x. rewrite elem_of_union. split; [by left|].
      intros [Hx|Hx]; [done|]. by apply Hsub.
  - intros R HR. rewrite rooms_handleJoinRoom. cbv zeta. cbn [Op_Client Op_RoomID].
    rewrite lookup_insert_eq, lookup_rooms_leaveCurrent, HR.
    case_decide; cbn; unfold AddUser, NewRoom; cbn;
      by rewrite (right_id_L ∅ (∪)).
Qed.

(** Alice registers and is the first to join "general". *)
Lemma Run_join_general_listed_witness :
  {| entry_id := "general"; entry_name := "General Chat"; entry_user_count := 1 |}
    ∈ listRooms (handleJoinRoom (stamp 3) (stamp 4) (mkRoomOperation 1 "general")
                   (Run connected [ReqRegister 1 (stamp 1) (stamp 2)])).
Proof.
  destruct (Run_join_general_listed (stamp 3) (stamp 4) 1
              [ReqRegister 1 (stamp 1) (stamp 2)] connected)
    as [(room & Hr & _ & _ & _ & _ & Hone) _].
  apply Hone. vm_compute in Hr. injection Hr as <-.
  apply (bool_decide_unpack _). vm_compute. exact I.
Defined.

(** C5 at the run that refutes it: the hub starts from [NewHub]'s empty
    room table and Alice's join of "general" is the first request [Run]
    serves.  The room is there before the join is served, so the join does
    not create it, and its name is "General Chat", not its id: the
    directory has no entry [{general, general, 1}]; its one entry is
    [{general, General Chat, 1}]. *)
Lemma Run_join_general :
  let h' := Run connected [ReqJoinRoom (mkRoomOperation 1 "general") (stamp 1) (stamp 2)] in
  rooms connected = ∅ ∧
  rooms (Run connected []) !! "general" = Some (NewRoom "general" "General Chat") ∧
  Room_Name <$> rooms h' !! "general" = Some "General Chat" ∧
  ({| entry_id := "general"; entry_name := "general"; entry_user_count := 1 |}
     ∉ listRooms h') ∧
  listRooms h' =
    [{| entry_id := "general"; entry_name := "General Chat"; entry_user_count := 1 |}].
Proof.
  intros h'.
  assert (listRooms h' =
    [{| entry_id := "general"; entry_name := "General Chat"; entry_user_count := 1 |}])
    as Hl by (vm_compute; reflexivity).
  split_and!.
  - reflexivity.
  - vm_compute. reflexivity.
  - vm_compute. reflexivity.
  - rewrite Hl. intros Hin. apply list_elem_of_singleton in Hin. discriminate Hin.
  - exact Hl.
Qed.

(** C6, as the code has it: a room broadcast acts on a message whose
    [Room] field is not empty and is the id of a room that exists.  It then
    appends the message to that room's history and hands exactly one copy
    to the client the routing table holds for each member, and nothing to
    any other client: a member whose user id the routing table does not
    lead to a client gets no copy.  When the [Room] field is empty, or is
    the id of no room, the call changes nothing at all.  (Routing is well
    formed in every state a run reaches, [Run_handles_wf].) *)
Theorem broadcastRoom_appends_and_delivers (m : Message) (h : Hub) :
  handles_wf h →
  (∀ room, rooms h !! Message_Room m = Some room → Message_Room m ≠ "" →
     let h' := broadcastMessage m h in
     rooms h' = <[Message_Room m := AddMessage m room]> (rooms h) ∧
     history h' (Message_Room m) = history h (Message_Room m) ++ [m] ∧
     (∀ u c, u ∈ Room_Users room → userClients h !! u = Some c →
             sent h' c = sent h c ++ [m]) ∧
     (∀ c, (∀ u, u ∈ Room_Users room → userClients h !! u ≠ Some c) →
           sent h' c = sent h c)) ∧
  (rooms h !! Message_Room m = None → broadcastMessage m h = h) ∧
  (Message_Room m = "" → broadcastMessage m h = h).
Proof.
  intros Hwf. split_and!; [|apply broadcastMessage_missing|].
  - intros room Hr Hne h'. subst h'.
    rewrite (rooms_broadcastMessage _ _ _ Hr Hne). split_and!.
    + done.
    + unfold history. rewrite (rooms_broadcastMessage _ _ _ Hr Hne).
      by rewrite lookup_insert_eq, Hr.
    + intros u c Hu Huc. rewrite (sent_broadcastMessage _ _ _ _ Hr Hne).
      rewrite (copies_wf h _ c u); [done|done| |done|apply NoDup_elements].
      by apply elem_of_elements.
    + intros c Hno. rewrite (sent_broadcastMessage _ _ _ _ Hr Hne).
      rewrite copies_none; [by rewrite app_nil_r|].
      intros u Hu. apply Hno. by apply elem_of_elements.
  - intros He. unfold broadcastMessage. rewrite decide_False; [done|].
    intros Hne. by apply Hne.
Qed.

Lemma broadcastRoom_appends_and_delivers_witness :
  handles_wf both_in_general ∧
  history (broadcastMessage hi both_in_general) "general" = [hi] ∧
  sent (broadcastMessage hi both_in_general) 2 = sent both_in_general 2 ++ [hi].
Proof.
  assert (handles_wf both_in_general) as Hwf.
  { apply (bool_decide_unpack (handles_wf both_in_general)). vm_compute. exact I. }
  destruct (broadcastRoom_appends_and_delivers hi both_in_general Hwf) as [Hex _].
  destruct (Hex {| Room_ID := "general"; Room_Name := "General Chat";
                   Room_Users := {["alice"; "bob"]}; Room_Messages := [] |})
    as (_ & Hhist & Hsent & _).
  - vm_compute. reflexivity.
  - discriminate.
  - split_and!; [exact Hwf | exact Hhist |].
    apply (Hsent "bob" 2); [set_solver | vm_compute; reflexivity].
Defined.

(** C6 at the runs that refute it.  First run: Alice connects twice
    (clients 1 and 3, one user id), her second connection joins "general",
    her first disconnects.  Client 3 is then a registered client whose
    user is a member of "general", and routing is well formed; but the
    routing table has lost Alice's entry, so a broadcast to "general"
    enters the history and client 3 is handed no copy.  Second run: Alice
    joins the room of the empty id, which the join creates; a message
    whose [Room] field is that id names an existing room, Alice is a
    routed member of it, and the broadcast still changes nothing: no
    history entry, no copy. *)
Lemma broadcast_misses_joined_member :
  (let h := Run reconnecting
              [ReqRegister 1 (stamp 1) (stamp 2); ReqRegister 3 (stamp 3) (stamp 4);
               ReqJoinRoom (mkRoomOperation 3 "general") (stamp 5) (stamp 6);
               ReqUnregister 1 (stamp 7)] in
   handles_wf h ∧ 3 ∈ clients h ∧ GetRoomID h 3 = "general" ∧
   User_ID (GetUser h 3) ∈ members h "general" ∧
   history (broadcastMessage hi h) "general" = history h "general" ++ [hi] ∧
   sent (broadcastMessage hi h) 3 = sent h 3) ∧
  (let h := Run connected
              [ReqRegister 1 (stamp 1) (stamp 2);
               ReqJoinRoom (mkRoomOperation 1 "") (stamp 3) (stamp 4)] in
   let m := mkMessage "m2" MessageTypeText "hi" "Alice" "alice" "" "" 6 in
   is_Some (rooms h !! Message_Room m) ∧
   "alice" ∈ members h (Message_Room m) ∧ userClients h !! "alice" = Some 1 ∧
   broadcastMessage m h = h).
Proof.
  split.
  - intros h. split_and!.
    + apply (bool_decide_unpack (handles_wf h)). vm_compute. exact I.
    + apply (bool_decide_unpack _). vm_compute. exact I.
    + vm_compute. reflexivity.
    + apply (bool_decide_unpack _). vm_compute. exact I.
    + vm_compute. reflexivity.
    + vm_compute. reflexivity.
  - intros h m. split_and!.
    + by eexists.
    + apply (bool_decide_unpack _). vm_compute. exact I.
    + vm_compute. reflexivity.
    + reflexivity.
Qed.

(** C8: a private message addressed to a user id that is not routed to
    any client leaves the whole state as it was: no room changes, no client
    is sent anything, and the call has no result that could carry an
    error. *)
Theorem sendPrivate_disconnected_noop (pm : PrivateMessage) (h : Hub) :
  userClients h !! PM_UserID pm = None → sendPrivateMessage pm h = h.
Proof. apply sendPrivateMessage_miss. Qed.

Lemma sendPrivate_disconnected_noop_witness :
  userClients both_in_general !! "carol" = None ∧
  sendPrivateMessage (mkPrivateMessage "carol" hi) both_in_general = both_in_general.
Proof.
  assert (userClients both_in_general !! "carol" = None) as Hu.
  { vm_compute. reflexivity. }
  split; [exact Hu|].
  exact (sendPrivate_disconnected_noop (mkPrivateMessage "carol" hi) both_in_general Hu).
Defined.


(** What two leaves in a row do.  On the room table [handleLeaveRoom] is
    idempotent: two calls for the same client and room leave every room,
    member sets and histories alike, as one call does; a call for a user
    who is not a member of the named room changes no room; a call that
    names no existing room changes nothing at all.  The leave message is
    another matter: the function never compares the named room with the
    room the client is in, so each call that names an existing room hands
    its message to the members that remain, the second call as the
    first. *)
Lemma leaveRoom_idempotent_on_rooms (s1 s2 : Stamp) (op : RoomOperation) (h : Hub) :
  let uid := User_ID (GetUser h (Op_Client op)) in
  let h1 := handleLeaveRoom s1 op h in
  let h2 := handleLeaveRoom s2 op h1 in
  rooms h2 = rooms h1 ∧
  (uid ∉ members h (Op_RoomID op) → rooms h1 = rooms h) ∧
  (rooms h !! Op_RoomID op = None → h1 = h) ∧
  (∀ c, sent h1 c =
        sent h c ++
        replicate (copies h (elements (members h (Op_RoomID op) ∖ {[uid]})) c)
                  (leaveMessage s1 (GetUser h (Op_Client op)) (Op_RoomID op))) ∧
  (∀ c, sent h2 c =
        sent h1 c ++
        replicate (copies h1 (elements (members h1 (Op_RoomID op))) c)
                  (leaveMessage s2 (GetUser h1 (Op_Client op)) (Op_RoomID op))).
Proof.
  intros uid h1 h2.
  assert (rooms h1 = match rooms h !! Op_RoomID op with
                     | Some room => <[Op_RoomID op := RemoveUser uid room]> (rooms h)
                     | None => rooms h
                     end) as Hr1 by apply rooms_handleLeaveRoom.
  assert (members h1 (Op_RoomID op) = members h (Op_RoomID op) ∖ {[uid]}) as Hm1.
  { unfold members. rewrite Hr1.
    destruct (rooms h !! Op_RoomID op) as [room|] eqn:Hr.
    - by rewrite lookup_insert_eq.
    - by rewrite Hr, empty_difference_L. }
  assert (User_ID (GetUser h1 (Op_Client op)) = uid) as Hid
    by apply User_ID_handleLeaveRoom.
  split_and!.
  - subst h2. rewrite rooms_handleLeaveRoom, Hid, Hr1.
    destruct (rooms h !! Op_RoomID op) as [room|] eqn:Hr.
    + rewrite lookup_insert_eq, insert_insert_eq. f_equal.
      unfold RemoveUser; cbn. f_equal. apply difference_singleton_twice.
    + by rewrite Hr.
  - intros Hn. rewrite Hr1. unfold members in Hn.
    destruct (rooms h !! Op_RoomID op) as [room|] eqn:Hr; [|done].
    apply insert_id. rewrite Hr. f_equal. destruct room as [i n us ms].
    unfold RemoveUser; cbn in *. f_equal. symmetry.
    by apply difference_singleton_absent.
  - apply handleLeaveRoom_missing.
  - intros c. apply sent_handleLeaveRoom.
  - intros c. subst h2. rewrite sent_handleLeaveRoom, Hid, Hm1.
    by rewrite difference_singleton_twice.
Qed.

(** C3 at the failing run: Alice and Bob are in "general" and Alice asks
    to leave it twice.  After her first leave she is no member of the room
    and her room pointer is empty; the member sets after the second leave
    are those after the first.  Yet the second leave reaches Bob as the
    first did: the second call produces a leave broadcast, and a leave for
    a user who is not in the room is not a no-op. *)
Theorem leave_twice_broadcasts_twice :
  ("alice" ∉ members alice_left_once "general") ∧
  GetRoomID alice_left_once 1 = "" ∧
  rooms alice_left_twice = rooms alice_left_once ∧
  (sent alice_left_twice 2 ≠ sent alice_left_once 2) ∧
  (sent alice_left_twice 2 =
     sent alice_left_once 2
     ++ [leaveMessage (stamp 10) (mkUser "alice" "Alice" "") "general"]).
Proof.
  split_and!.
  - apply (bool_decide_unpack _). vm_compute. exact I.
  - vm_compute. reflexivity.
  - vm_compute. reflexivity.
  - vm_compute. discriminate.
  - vm_compute. reflexivity.
Qed.

(** C2 at the failing run: Alice's second connection registers while the
    first is still registered, then the first unregisters.  The second
    connection is still a registered client, but the routing table has lost
    the entry of its user id: I2 is broken, and a private message to Alice
    is dropped. *)
Theorem unregister_superseded_drops_route :
  let h := Run reconnecting reconnect_run in
  clients h = {[3]} ∧
  registered_ids h = {["alice"]} ∧
  userClients h = ∅ ∧
  ¬ routing_matches_clients h ∧
  sendPrivateMessage (mkPrivateMessage "alice" hi) h = h.
Proof.
  intros h.
  assert (clients h = {[3]}) as Hc by (vm_compute; reflexivity).
  assert (registered_ids h = {["alice"]}) as Hr by (vm_compute; reflexivity).
  assert (userClients h = ∅) as Hu by (vm_compute; reflexivity).
  split_and!; [exact Hc | exact Hr | exact Hu | |].
  - unfold routing_matches_clients. rewrite Hr, Hu, dom_empty_L.
    intros He. symmetry in He. by apply (non_empty_singleton_L "alice") in He.
  - apply sendPrivateMessage_miss. by rewrite Hu.
Qed.

(** C4 at the failing run: Alice joins "lobby", asks to leave "general",
    which exists but which she is not in, and joins "games".  The stray
    leave has cleared her room pointer, so the second join does not take
    her out of "lobby": she ends up a member of two rooms. *)
Theorem stray_leave_breaks_single_room :
  let h := Run connected stray_leave_run in
  "alice" ∈ members h "lobby" ∧
  "alice" ∈ members h "games" ∧
  ¬ single_room h.
Proof.
  intros h.
  assert ("alice" ∈ members h "lobby") as H1.
  { apply (bool_decide_unpack _). vm_compute. exact I. }
  assert ("alice" ∈ members h "games") as H2.
  { apply (bool_decide_unpack _). vm_compute. exact I. }
  split_and!; [done..|].
  intros Hs. by specialize (Hs "alice" "lobby" "games" H1 H2).
Qed.

End ChatHubTheory.

(** ** Part IV: properties of the signaling Relay *)

Module RelayTheory.
Import Relay.

Section channels.
Implicit Types (h : Hub) (c : Client) (ch : Chan).

Lemma ID_of_with_Send c ch h c' : ID_of (with_Send c ch h) c' = ID_of h c'.
Proof.
  unfold ID_of, with_Send; cbn. destruct (decide (c = c')) as [->|Hne].
  - by rewrite lookup_total_insert_eq.
  - by rewrite lookup_total_insert_ne.
Qed.

Lemma Send_of_with_Send c ch h c' :
  Send_of (with_Send c ch h) c' = if decide (c' = c) then ch else Send_of h c'.
Proof.
  unfold Send_of, with_Send; cbn. case_decide as Hc.
  - subst. by rewrite lookup_total_insert_eq.
  - by rewrite lookup_total_insert_ne.
Qed.

(** Marshalling the envelope fails exactly when the payload is not a
    JSON text. *)
Lemma json_Marshal_fullMsg (msg : Message) :
  json_Marshal (fullMsg msg) =
  if marshals (GoRawMessage (Data msg)) then Some (Marshalled (fullMsg msg)) else None.
Proof.
  unfold json_Marshal.
  destruct (marshals (GoRawMessage (Data msg))) eqn:Hd.
  - rewrite decide_True; [done|]. unfold fullMsg.
    repeat (apply map_Forall_insert_2; [done|]). apply map_Forall_empty.
  - rewrite decide_False; [done|]. intros Hall.
    assert (fullMsg msg !! "data" = Some (GoRawMessage (Data msg))) as Hl.
    { unfold fullMsg. rewrite !lookup_insert_ne by done.
      apply lookup_insert_eq. }
    apply Hall in Hl. congruence.
Qed.

(** What a successful unregistration of a registered id does. *)
Lemma Unregister_present c h c0 :
  clients h !! ID_of h c = Some c0 → chan_closed (Send_of h c) = false →
  ∃ h', Unregister c h = Ok h' ∧
        clients h' = delete (ID_of h c) (clients h) ∧
        (∀ c', ID_of h' c' = ID_of h c') ∧
        (∀ c', Send_of h' c' =
               if decide (c' = c)
               then mkChan (chan_buf (Send_of h c)) (chan_cap (Send_of h c)) true
               else Send_of h c').
Proof.
  intros Hc Hopen. unfold Unregister, close_Send. rewrite Hc.
  change (Send_of {| clients := delete (ID_of h c) (clients h); heap := heap h |} c)
    with (Send_of h c).
  rewrite Hopen. eexists. split; [done|]. split_and!.
  - done.
  - intros c'. by rewrite ID_of_with_Send.
  - intros c'. by rewrite Send_of_with_Send.
Qed.

Lemma Unregister_absent c h :
  clients h !! ID_of h c = None → Unregister c h = Ok h.
Proof. intros Hc. unfold Unregister. by rewrite Hc. Qed.

(** A forward that finds the channel of its peer open does not panic; it
    leaves the table, the ids and the open channels as they are. *)
Lemma Broadcast_safe (msg : Message) h :
  (∀ to, clients h !! To msg = Some to → chan_closed (Send_of h to) = false) →
  ∃ h', Broadcast msg h = Ok h' ∧ clients h' = clients h ∧
        (∀ c, ID_of h' c = ID_of h c) ∧
        (∀ c, chan_closed (Send_of h' c) = chan_closed (Send_of h c)) ∧
        (∀ c, chan_cap (Send_of h' c) = chan_cap (Send_of h c)) ∧
        (∀ c, (length (chan_buf (Send_of h' c)) ≤ chan_cap (Send_of h' c))%nat ∨
              chan_buf (Send_of h' c) = chan_buf (Send_of h c)).
Proof.
  intros Hopen. unfold Broadcast.
  destruct (clients h !! To msg) as [to|] eqn:Hto;
    [|exists h; split_and!; by auto].
  destruct (json_Marshal (fullMsg msg)) as [text|];
    [|exists h; split_and!; by auto].
  unfold try_send. rewrite (Hopen to eq_refl).
  case_decide as Hroom; [|exists h; split_and!; by auto].
  eexists. split; [done|]. split_and!.
  - done.
  - intros c. apply ID_of_with_Send.
  - intros c. rewrite Send_of_with_Send. case_decide; [subst|done].
    by rewrite (Hopen to eq_refl).
  - intros c. rewrite Send_of_with_Send. by case_decide; [subst|].
  - intros c. rewrite Send_of_with_Send. case_decide; [|by right].
    left. cbn. rewrite length_app. cbn. lia.
Qed.

Lemma named_cons (r : Request) (rs : list Request) c :
  c ∈ named rs → c ∈ named (r :: rs).
Proof.
  unfold named. cbn. destruct r; cbn; [by right|by right|done].
Qed.
End channels.

(** C7, as the code has it: the Relay forwards the full envelope, with its
    [from], [to], [type] and [data], to the open queue of a registered
    peer when the payload marshals and the queue has room; it drops the
    message, leaving the state as it was, when the payload is not a JSON
    text, when the queue is full, and when the peer is not registered.  In
    each of these cases the call returns, so the worker goes on. *)
Theorem forward_delivers_or_drops (msg : Message) (h : Hub) :
  (fullMsg msg !! "from" = Some (GoString (From msg)) ∧
   fullMsg msg !! "to" = Some (GoString (To msg)) ∧
   fullMsg msg !! "type" = Some (GoString (MType msg)) ∧
   fullMsg msg !! "data" = Some (GoRawMessage (Data msg))) ∧
  (clients h !! To msg = None → Broadcast msg h = Ok h) ∧
  (∀ to, clients h !! To msg = Some to → chan_closed (Send_of h to) = false →
     let ch := Send_of h to in
     (marshals (GoRawMessage (Data msg)) = false → Broadcast msg h = Ok h) ∧
     (marshals (GoRawMessage (Data msg)) = true →
      (chan_cap ch ≤ length (chan_buf ch))%nat → Broadcast msg h = Ok h) ∧
     (marshals (GoRawMessage (Data msg)) = true →
      length (chan_buf ch) < chan_cap ch →
      ∃ h', Broadcast msg h = Ok h' ∧
            clients h' = clients h ∧
            Send_of h' to =
              mkChan (chan_buf ch ++ [Marshalled (fullMsg msg)]) (chan_cap ch) false ∧
            (∀ c, c ≠ to → Send_of h' c = Send_of h c))).
Proof.
  split_and!.
  - done.
  - unfold fullMsg. rewrite lookup_insert_ne by done. apply lookup_insert_eq.
  - unfold fullMsg. rewrite !lookup_insert_ne by done. apply lookup_insert_eq.
  - unfold fullMsg. rewrite !lookup_insert_ne by done. apply lookup_insert_eq.
  - intros Hto. unfold Broadcast. by rewrite Hto.
  - intros to Hto Hopen ch. subst ch. unfold Broadcast.
    rewrite Hto, json_Marshal_fullMsg.
    split_and!.
    + by intros ->.
    + intros -> Hfull. unfold try_send. rewrite Hopen.
      rewrite decide_False; [done|lia].
    + intros -> Hroom. unfold try_send. rewrite Hopen.
      rewrite decide_True by done. eexists. split; [done|]. split_and!.
      * done.
      * by rewrite Send_of_with_Send, decide_True.
      * intros c Hc. by rewrite Send_of_with_Send, decide_False.
Qed.

Lemma forward_delivers_or_drops_witness :
  clients both_registered !! To offer = Some 2 ∧
  (∃ h', Broadcast offer both_registered = Ok h' ∧
         chan_buf (Send_of h' 2) = [Marshalled (fullMsg offer)]) ∧
  Broadcast offer p2_saturated = Ok p2_saturated.
Proof.
  assert (clients both_registered !! To offer = Some 2) as H2 by (vm_compute; reflexivity).
  assert (clients p2_saturated !! To offer = Some 2) as H2' by (vm_compute; reflexivity).
  destruct (forward_delivers_or_drops offer both_registered) as (_ & _ & Hreg).
  destruct (Hreg 2 H2 eq_refl) as (_ & _ & Hroom).
  destruct (forward_delivers_or_drops offer p2_saturated) as (_ & _ & Hsat).
  destruct (Hsat 2 H2' eq_refl) as (_ & Hfull & _).
  split_and!.
  - exact H2.
  - destruct Hroom as (h' & Hb & _ & Hs & _).
    + vm_compute. reflexivity.
    + vm_compute. lia.
    + exists h'. split; [exact Hb|]. by rewrite Hs.
  - apply Hfull; [vm_compute; reflexivity | vm_compute; lia].
Defined.

(** The peer "p2" is registered and its queue is empty, yet a message
    for it whose payload is cut short is not queued: marshalling fails and
    the message is dropped. *)
Lemma forward_truncated_payload_dropped :
  clients both_registered !! To truncated = Some 2 ∧
  chan_closed (Send_of both_registered 2) = false ∧
  length (chan_buf (Send_of both_registered 2)) < chan_cap (Send_of both_registered 2) ∧
  Broadcast truncated both_registered = Ok both_registered ∧
  ¬ (∃ h', Broadcast truncated both_registered = Ok h' ∧
           chan_buf (Send_of h' 2) =
           chan_buf (Send_of both_registered 2) ++ [Marshalled (fullMsg truncated)]).
Proof.
  assert (Broadcast truncated both_registered = Ok both_registered) as Hb
    by (vm_compute; reflexivity).
  split_and!.
  - vm_compute. reflexivity.
  - reflexivity.
  - vm_compute. lia.
  - exact Hb.
  - intros (h' & Hb' & Hq). rewrite Hb in Hb'. injection Hb' as <-.
    vm_compute in Hq. discriminate Hq.
Qed.

(** Unregistrations alone never close a channel twice. *)
Lemma Run_unregisters (cs : list Client) (h : Hub) :
  settled h cs →
  ∃ h', Run h (ReqUnregister <$> cs) = Ok h' ∧
        (∀ c, ID_of h' c = ID_of h c) ∧
        (∀ k, clients h !! k = None → clients h' !! k = None) ∧
        (∀ c, c ∈ cs → clients h' !! ID_of h c = None) ∧
        (∀ c, c ∉ cs → Send_of h' c = Send_of h c).
Proof.
  revert h. induction cs as [|c cs IH]; intros h Hs.
  { exists h. split_and!; try done. intros c Hc. by apply elem_of_nil in Hc. }
  apply Forall_cons in Hs as [Hc Hs]. cbn [fmap list_fmap Run step].
  destruct (clients h !! ID_of h c) as [c0|] eqn:Hl.
  - assert (chan_closed (Send_of h c) = false) as Hopen.
    { destruct (chan_closed (Send_of h c)); [by specialize (Hc eq_refl)|done]. }
    destruct (Unregister_present c h c0 Hl Hopen) as (h1 & -> & Ht & Hid & Hsend).
    destruct (IH h1) as (h' & -> & Hid' & Hnone & Hgone & Hkeep).
    { apply Forall_forall. intros c' Hc'. rewrite Hsend, Hid, Ht.
      case_decide as Hd; [subst; intros _; apply lookup_delete_eq|].
      intros Hcl. rewrite Forall_forall in Hs.
      apply lookup_delete_None. right. by apply Hs. }
    exists h'. split; [done|]. split_and!.
    + intros c'. by rewrite Hid', Hid.
    + intros k Hk. apply Hnone. rewrite Ht. apply lookup_delete_None. by right.
    + intros c' Hc'. apply elem_of_cons in Hc' as [->|Hc'].
      * apply Hnone. rewrite Ht. apply lookup_delete_eq.
      * rewrite <-Hid. by apply Hgone.
    + intros c' Hc'. apply not_elem_of_cons in Hc' as [Hne Hc'].
      rewrite (Hkeep c' Hc'), Hsend. by rewrite decide_False.
  - rewrite (Unregister_absent c h Hl).
    destruct (IH h Hs) as (h' & -> & Hid' & Hnone & Hgone & Hkeep).
    exists h'. split; [done|]. split_and!; try done.
    + intros c' Hc'. apply elem_of_cons in Hc' as [->|Hc']; [by apply Hnone|by apply Hgone].
    + intros c' Hc'. apply not_elem_of_cons in Hc' as [_ Hc']. by apply Hkeep.
Qed.

(** *** Runs that register each client once *)

Section registered_once.
Variable cs : list Client.
Implicit Types (h : Hub) (c : Client) (r : Request) (rs : list Request).

Lemma registered_named rs c : c ∈ registered rs → c ∈ named rs.
Proof.
  induction rs as [|r rs IH]; [done|].
  destruct r as [c0|c0|msg]; cbn.
  - intros Hc. apply elem_of_cons in Hc as [->|Hc]; [by left|right; by apply IH].
  - intros Hc. right. by apply IH.
  - exact IH.
Qed.

(** One request of such a run does not panic and leaves the state
    guarded for the rest of the run. *)
Lemma step_guarded h r rs :
  guarded cs (r :: rs) h → ∃ h', step h r = Ok h' ∧ guarded cs rs h'.
Proof.
  intros (Hinj & Htab & Hreg & Hnd & Hcs).
  destruct r as [c|c|msg]; cbn [step].
  - change (registered (ReqRegister c :: rs)) with (c :: registered rs) in *.
    apply NoDup_cons in Hnd as [Hc Hnd].
    eexists. split; [done|]. split_and!.
    + exact Hinj.
    + intros id c' Hl. cbn in Hl.
      apply lookup_insert_Some in Hl as [[<- <-]|[_ Hl]].
      * split_and!; [done| | |done].
        -- apply Hreg. by left.
        -- apply Hcs. cbn. by left.
      * destruct (Htab id c' Hl) as (? & ? & ? & Hnot).
        apply not_elem_of_cons in Hnot as [_ Hnot]. by split_and!.
    + intros c' Hc'. apply Hreg. by right.
    + exact Hnd.
    + intros c' Hc'. by apply Hcs, named_cons.
  - change (registered (ReqUnregister c :: rs)) with (registered rs) in *.
    destruct (clients h !! ID_of h c) as [c0|] eqn:Hl.
    + destruct (Htab _ c0 Hl) as (Hid0 & Hopen0 & Hc0 & Hnot0).
      assert (c0 = c) as ->.
      { apply Hinj; [done| |done]. apply Hcs. cbn. by left. }
      destruct (Unregister_present c h c Hl Hopen0) as (h' & -> & Ht & Hid & Hsend).
      exists h'. split; [done|]. split_and!.
      * intros c1 c2. rewrite !Hid. apply Hinj.
      * intros id c' Hl'. rewrite Ht in Hl'.
        apply lookup_delete_Some in Hl' as [Hne Hl'].
        destruct (Htab id c' Hl') as (Hid' & Hopen' & Hc' & Hnot').
        rewrite Hid, Hsend. split_and!; [done| |done..].
        rewrite decide_False; [done|]. intros ->. congruence.
      * intros c' Hc'. rewrite Hsend. rewrite decide_False; [by apply Hreg|].
        by intros ->.
      * exact Hnd.
      * intros c' Hc'. by apply Hcs, named_cons.
    + rewrite (Unregister_absent c h Hl). exists h. split; [done|].
      split_and!; [done..|]. intros c' Hc'. by apply Hcs, named_cons.
  - change (registered (ReqBroadcast msg :: rs)) with (registered rs) in *.
    change (named (ReqBroadcast msg :: rs)) with (named rs) in Hcs.
    destruct (Broadcast_safe msg h) as (h' & -> & Ht & Hid & Hcl & _).
    { intros to Hto. by apply Htab in Hto as (_ & ? & _). }
    exists h'. split; [done|]. split_and!.
    + intros c1 c2. rewrite !Hid. apply Hinj.
    + intros id c' Hl'. rewrite Ht in Hl'. rewrite Hid, Hcl. by apply Htab.
    + intros c' Hc'. rewrite Hcl. by apply Hreg.
    + exact Hnd.
    + exact Hcs.
Qed.

Lemma Run_guarded rs h :
  guarded cs rs h → ∃ h', Run h rs = Ok h' ∧ guarded cs [] h'.
Proof.
  revert h. induction rs as [|r rs IH]; intros h Hg; [by exists h|].
  destruct (step_guarded h r rs Hg) as (h1 & Hs & Hg1).
  destruct (IH h1 Hg1) as (h' & Hr & Hg').
  exists h'. cbn [Run]. by rewrite Hs.
Qed.
End registered_once.

(** From an empty table, a run that registers each client once, on an
    open channel and under an id of its own, never panics: whatever it
    unregisters and however often, no channel is closed twice. *)
Lemma Run_registered_once (rs : list Request) (h : Hub) :
  clients h = ∅ → all_open h (named rs) → registered_once h rs →
  ∃ h', Run h rs = Ok h' ∧ table_open h'.
Proof.
  intros He Ho [Hnd Hinj].
  destruct (Run_guarded (named rs) rs h) as (h' & Hr & _ & Htab & _).
  - split_and!.
    + intros c1 c2 H1 H2. rewrite Forall_forall in Hinj.
      specialize (Hinj c1 H1). rewrite Forall_forall in Hinj. by apply Hinj.
    + intros id c Hl. by rewrite He, lookup_empty in Hl.
    + intros c Hc. unfold all_open in Ho. rewrite Forall_forall in Ho.
      by apply Ho, registered_named.
    + exact Hnd.
    + done.
  - exists h'. split; [done|]. intros id c Hl.
    by destruct (Htab id c Hl) as (? & ? & _).
Qed.

(** C10, as the code has it: unregistering a client whose id is not in the
    table changes nothing, neither the table nor any channel.  The guard
    is by id, not by client, so what follows for the channels is this.  A
    run of unregistrations over clients that each have their channel open,
    or closed with the id out of the table, goes through without a panic:
    no [Send] channel is closed a second time, the ids of the clients end
    out of the table, and no other client's channel is touched.  And from
    an empty table a run that registers each client at most once, on an
    open channel, and names no two clients of one id never panics,
    whatever it unregisters and however often. *)
Theorem unregister_closes_once (cs : list Client) (h : Hub) :
  (∀ c, clients h !! ID_of h c = None → Unregister c h = Ok h) ∧
  (settled h cs →
   ∃ h', Run h (ReqUnregister <$> cs) = Ok h' ∧
         (∀ c, c ∈ cs → clients h' !! ID_of h c = None) ∧
         (∀ c, c ∉ cs → Send_of h' c = Send_of h c)) ∧
  (∀ rs, clients h = ∅ → all_open h (named rs) → registered_once h rs →
         ∃ h', Run h rs = Ok h' ∧ table_open h').
Proof.
  split_and!.
  - intros c. apply Unregister_absent.
  - intros Hs.
    destruct (Run_unregisters cs h Hs) as (h' & Hr & _ & _ & Hgone & Hkeep).
    by exists h'.
  - intros rs. apply Run_registered_once.
Qed.

Lemma unregister_closes_once_witness :
  settled both_registered [1; 1; 2; 3; 2] ∧
  (∃ h', Run both_registered (ReqUnregister <$> [1; 1; 2; 3; 2]) = Ok h' ∧
         Send_of h' 3 = Send_of both_registered 3) ∧
  registered_once peers
    [ReqRegister 1; ReqUnregister 1; ReqUnregister 1; ReqRegister 2;
     ReqBroadcast offer; ReqUnregister 2; ReqUnregister 1] ∧
  (∃ h', Run peers
           [ReqRegister 1; ReqUnregister 1; ReqUnregister 1; ReqRegister 2;
            ReqBroadcast offer; ReqUnregister 2; ReqUnregister 1] = Ok h').
Proof.
  assert (settled both_registered [1; 1; 2; 3; 2]) as Hs.
  { apply (bool_decide_unpack (settled both_registered [1; 1; 2; 3; 2])).
    vm_compute. exact I. }
  set (rs := [ReqRegister 1; ReqUnregister 1; ReqUnregister 1; ReqRegister 2;
              ReqBroadcast offer; ReqUnregister 2; ReqUnregister 1]).
  assert (registered_once peers rs) as Hro.
  { apply (bool_decide_unpack (registered_once peers rs)). vm_compute. exact I. }
  destruct (unregister_closes_once [1; 1; 2; 3; 2] both_registered)
    as (_ & Hun & _).
  destruct (unregister_closes_once [] peers) as (_ & _ & Hrun).
  split_and!.
  - exact Hs.
  - destruct (Hun Hs) as (h' & Hr & _ & _).
    exists h'. split; [exact Hr|].
    vm_compute in Hr. injection Hr as <-. vm_compute. reflexivity.
  - exact Hro.
  - destruct (Hrun rs) as (h' & Hr & _).
    + reflexivity.
    + apply (bool_decide_unpack (all_open peers (named rs))). vm_compute. exact I.
    + exact Hro.
    + by exists h'.
Defined.

(** C10 at the run that refutes it: client 1 registers as "p1" and is
    unregistered, then client 3 registers under the same id.  Each client
    has been registered once; the channel of client 1 is closed, and its
    id is in the table again, where it leads to client 3.  Unregistering
    client 1 once more finds the id, deletes the entry of client 3 and
    closes the channel of client 1 a second time: the Relay panics. *)
Lemma unregister_after_reregistration_panics :
  NoDup (registered [ReqRegister 1; ReqUnregister 1; ReqRegister 3; ReqUnregister 1]) ∧
  (∃ h2, Run peers [ReqRegister 1; ReqUnregister 1; ReqRegister 3] = Ok h2 ∧
         chan_closed (Send_of h2 1) = true ∧
         clients h2 !! ID_of h2 1 = Some 3 ∧
         ¬ settled h2 [1] ∧
         Unregister 1 h2 = Panic) ∧
  Run peers [ReqRegister 1; ReqUnregister 1; ReqRegister 3; ReqUnregister 1] = Panic.
Proof.
  split_and!.
  - apply (bool_decide_unpack _). vm_compute. exact I.
  - eexists. split; [vm_compute; reflexivity|]. split_and!.
    + reflexivity.
    + vm_compute. reflexivity.
    + intros Hs. apply Forall_cons in Hs as [Hs _].
      specialize (Hs eq_refl). vm_compute in Hs. discriminate Hs.
    + vm_compute. reflexivity.
  - vm_compute. reflexivity.
Qed.

End RelayTheory.

(** ** Part V: further properties of the chat Hub *)

Module ChatHubMore.
Import ChatHub ChatHubTheory.

(** X1: the outcome of a room broadcast does not depend on the order in
    which the members are visited: delivering to the members in any
    order gives the state [broadcastToRoom] gives. *)
Theorem broadcastToRoom_any_order (roomID : string) (m : Message) (h : Hub)
    (room : Room) (l : list string) :
  rooms h !! roomID = Some room → l ≡ₚ elements (Room_Users room) →
  foldl (deliver m) h l = broadcastToRoom roomID m h.
Proof.
  intros Hr Hl. unfold broadcastToRoom. rewrite Hr. by apply broadcast_order.
Qed.

Lemma broadcastToRoom_any_order_witness :
  foldl (deliver hi) both_in_general ["bob"; "alice"] =
  broadcastToRoom "general" hi both_in_general.
Proof.
  apply (broadcastToRoom_any_order "general" hi both_in_general
           {| Room_ID := "general"; Room_Name := "General Chat";
              Room_Users := {["alice"; "bob"]}; Room_Messages := [] |}).
  - vm_compute. reflexivity.
  - vm_compute. apply Permutation_swap.
Defined.

Lemma Run_handles_wf_witness :
  userClients reconnecting = ∅ ∧ handles_wf (Run reconnecting reconnect_run).
Proof.
  split; [reflexivity|]. apply (Run_handles_wf reconnect_run reconnecting). reflexivity.
Defined.

(** X3: the history of a room that exists is append-only and ordered:
    after any run it is the history before, followed by the messages the
    run's broadcast requests addressed to the room, in arrival order. *)
Theorem history_is_broadcasts_in_order (rs : list Request) (h : Hub)
    (R : string) (room : Room) :
  rooms h !! R = Some room →
  history (serve h rs) R = history h R ++ broadcasts_to R rs.
Proof.
  intros Hr. destruct (serve_room rs h R room Hr) as (room' & Hr' & _ & _ & Hm).
  unfold history. by rewrite Hr', Hr.
Qed.

Lemma history_is_broadcasts_in_order_witness :
  history (serve alice_in_general
             [ReqBroadcast hi; ReqSendToUser (mkPrivateMessage "bob" whisper);
              ReqJoinRoom (mkRoomOperation 2 "general") (stamp 7) (stamp 8);
              ReqBroadcast hello]) "general"
  = [hi; hello].
Proof.
  rewrite (history_is_broadcasts_in_order _ alice_in_general "general"
             {| Room_ID := "general"; Room_Name := "General Chat";
                Room_Users := {["alice"]}; Room_Messages := [] |}).
  - vm_compute. reflexivity.
  - vm_compute. reflexivity.
Defined.

(** X4: no request destroys or renames a room: a room that exists is
    still there after any run, under the same id and the same name. *)
Theorem rooms_persist (rs : list Request) (h : Hub) (R : string) (room : Room) :
  rooms h !! R = Some room →
  ∃ room', rooms (serve h rs) !! R = Some room' ∧
           Room_ID room' = Room_ID room ∧ Room_Name room' = Room_Name room.
Proof.
  intros Hr. destruct (serve_room rs h R room Hr) as (room' & ? & ? & ? & _).
  by exists room'.
Qed.

Lemma rooms_persist_witness :
  ∃ room', rooms (serve both_in_general
                    [ReqLeaveRoom (mkRoomOperation 1 "general") (stamp 9);
                     ReqUnregister 2 (stamp 10)]) !! "general" = Some room' ∧
           Room_Name room' = "General Chat".
Proof.
  destruct (rooms_persist
              [ReqLeaveRoom (mkRoomOperation 1 "general") (stamp 9);
               ReqUnregister 2 (stamp 10)] both_in_general "general"
              {| Room_ID := "general"; Room_Name := "General Chat";
                 Room_Users := {["alice"; "bob"]}; Room_Messages := [] |})
    as (room' & Hr & _ & Hn).
  - vm_compute. reflexivity.
  - exists room'. split; [exact Hr|exact Hn].
Defined.

(** X5: under [Run] the default room is always there: in every state of
    every run "general" exists, named "General Chat", and its history is
    exactly the messages broadcast to it, in order. *)
Theorem Run_general_room (rs : list Request) (h : Hub) :
  ∃ room, rooms (Run h rs) !! "general" = Some room ∧
          Room_ID room = "general" ∧ Room_Name room = "General Chat" ∧
          Room_Messages room = broadcasts_to "general" rs.
Proof.
  destruct (serve_room rs (Run_init h) "general" (NewRoom "general" "General Chat"))
    as (room & ? & ? & ? & ?).
  { unfold Run_init; cbn. apply lookup_insert_eq. }
  by exists room.
Qed.

(** X6: rooms are stored under their own ids, and stay so: starting from
    a table where every key is the id of its room, every run and every
    [CreateRoom] keeps it that way. *)
Theorem room_keys_stay_ids (rs : list Request) (h : Hub) (uuid name : string) :
  room_keys_wf h →
  room_keys_wf (Run h rs) ∧ room_keys_wf (CreateRoom uuid name (Run h rs)).2.
Proof.
  intros Hwf.
  assert (room_keys_wf (Run h rs)) as Hrun.
  { apply serve_room_keys_wf. unfold room_keys_wf, Run_init; cbn.
    by apply map_Forall_insert_2. }
  split; [done|]. unfold CreateRoom; cbn. by apply map_Forall_insert_2.
Qed.

Lemma room_keys_stay_ids_witness :
  room_keys_wf connected ∧
  room_keys_wf (Run connected stray_leave_run).
Proof.
  assert (room_keys_wf connected) as Hwf.
  { apply (bool_decide_unpack (room_keys_wf connected)). vm_compute. exact I. }
  split; [exact Hwf|].
  apply (room_keys_stay_ids stray_leave_run connected "" "" Hwf).
Defined.

(** *** Exact deliveries *)

Section exact_deliveries.
Implicit Types (h : Hub) (c : Client) (s : Stamp) (op : RoomOperation).




Lemma copies_member h c (X : gset string) u :
  handles_wf h → u ∈ X → userClients h !! u = Some c →
  copies h (elements X) c = 1.
Proof.
  intros Hwf Hu Hc. apply (copies_wf h _ c u); [done| |done|apply NoDup_elements].
  by apply elem_of_elements.
Qed.


Lemma sent_leaveCurrent_exact s user roomID h c :
  sent (leaveCurrent s user roomID h) c =
  sent h c ++
  replicate (if decide (roomID ≠ "")
             then copies h (elements (members h roomID ∖ {[User_ID user]})) c
             else 0)
            (leaveMessage s user roomID).
Proof.
  unfold leaveCurrent, members. case_decide; [|cbn; by rewrite app_nil_r].
  destruct (rooms h !! roomID) as [room|] eqn:Hr.
  - rewrite sent_broadcastToRoom. unfold members; cbn. by rewrite lookup_insert_eq.
  - rewrite empty_difference_L, elements_empty. cbn. by rewrite app_nil_r.
Qed.

Lemma sent_handleJoinRoom_exact sl sj op h c :
  let client := Op_Client op in
  let cur := GetRoomID h client in
  let uid := User_ID (GetUser h client) in
  sent (handleJoinRoom sl sj op h) c =
  sent h c
  ++ replicate (if decide (cur ≠ "")
                then copies h (elements (members h cur ∖ {[uid]})) c else 0)
               (leaveMessage sl (GetUser h client) cur)
  ++ replicate (copies h (elements (members (handleJoinRoom sl sj op h) (Op_RoomID op))) c)
               (joinMessage sj (GetUser h client) (Op_RoomID op))
  ++ (if decide (c = client) then history h (Op_RoomID op) else []).
Proof.
  intros client cur uid.
  assert (members (handleJoinRoom sl sj op h) (Op_RoomID op) =
          {[uid]} ∪ members (leaveCurrent sl (GetUser h client) cur h) (Op_RoomID op))
    as Hm.
  { rewrite members_handleJoinRoom. cbv zeta. by rewrite decide_True. }
  rewrite Hm. unfold handleJoinRoom. cbv zeta.
  rewrite sent_replay, sent_broadcastToRoom, sent_SetRoomID, sent_SetUserRoom.
  change (sent (with_rooms ?rs ?h1) c) with (sent h1 c).
  fold client cur. rewrite sent_leaveCurrent_exact. fold uid.
  rewrite <-!app_assoc. do 2 f_equal. f_equal.
  - f_equal.
    destruct (leaveCurrent_tables sl (GetUser h client) cur h) as (_ & Hu).
    unfold copies, members; cbn. rewrite Hu, lookup_insert_eq; cbn.
    by destruct (rooms (leaveCurrent sl (GetUser h client) cur h) !! Op_RoomID op).
  - case_decide; [|done]. cbn.
    rewrite <-(history_leaveCurrent sl (GetUser h client) cur h (Op_RoomID op)).
    unfold history. by destruct (rooms _ !! Op_RoomID op).
Qed.


End exact_deliveries.

(** *** Registration and private messages *)

(** X7: registration is last-register-wins on the routing table and
    greets the registering client alone: afterwards its user id is routed
    to it, whatever the id was routed to before, no other route and no room
    has changed, and a private message to that id reaches it, after the
    welcome and the room list, and nobody else. *)
Theorem register_routes_and_greets (s1 s2 : Stamp) (c : Client) (h : Hub)
    (msg : Message) :
  let uid := User_ID (GetUser h c) in
  let h1 := registerClient s1 s2 c h in
  let h2 := sendPrivateMessage (mkPrivateMessage uid msg) h1 in
  c ∈ clients h1 ∧ userClients h1 !! uid = Some c ∧
  (∀ u, u ≠ uid → userClients h1 !! u = userClients h !! u) ∧
  rooms h1 = rooms h ∧
  (∀ c', c' ≠ c → sent h1 c' = sent h c') ∧
  sent h2 c = sent h c ++ [welcomeMessage s1; roomsMessage s2 h; msg] ∧
  (∀ c', c' ≠ c → sent h2 c' = sent h c').
Proof.
  intros uid h1 h2.
  destruct (registerClient_tables s1 s2 c h) as (Hc & Hu & Hr).
  assert (userClients h1 !! uid = Some c) as Hroute.
  { subst h1 uid. rewrite Hu. apply lookup_insert_eq. }
  assert (h2 = SendMessage c msg h1) as Hh2.
  { subst h2. unfold sendPrivateMessage; cbn [PM_UserID PM_Message]. by rewrite Hroute. }
  split_and!.
  - subst h1. rewrite Hc. apply elem_of_union. left. by apply elem_of_singleton.
  - done.
  - intros u Hne. subst h1 uid. rewrite Hu. by rewrite lookup_insert_ne.
  - done.
  - intros c' Hne. subst h1. rewrite sent_registerClient.
    rewrite decide_False by done. by rewrite app_nil_r.
  - rewrite Hh2, sent_SendMessage, decide_True by done. subst h1.
    rewrite sent_registerClient, decide_True by done. by rewrite <-app_assoc.
  - intros c' Hne. rewrite Hh2, sent_SendMessage, decide_False by done. subst h1.
    rewrite sent_registerClient, decide_False by done. by rewrite app_nil_r.
Qed.

(** X8: unregistration is idempotent: a second unregistration of the same
    client changes nothing, and neither does the unregistration of a
    client that is not registered. *)
Theorem unregister_idempotent (s1 s2 : Stamp) (c : Client) (h : Hub) :
  unregisterClient s2 c (unregisterClient s1 c h) = unregisterClient s1 c h ∧
  (c ∉ clients h → unregisterClient s1 c h = h).
Proof.
  split; [|apply unregisterClient_absent].
  apply unregisterClient_absent.
  destruct (decide (c ∈ clients h)) as [Hc|Hc].
  - destruct (unregisterClient_tables s1 c h Hc) as (-> & _).
    intros Hin. apply elem_of_difference in Hin as [_ Hn].
    by apply Hn, elem_of_singleton.
  - by rewrite unregisterClient_absent.
Qed.



(** *** Moving between rooms *)

Section moving.
Implicit Types (h : Hub) (c : Client) (s : Stamp) (op : RoomOperation).

(** Who is in the joined room after a join. *)
Lemma elem_of_members_joined sl sj op h u :
  u ∈ members (handleJoinRoom sl sj op h) (Op_RoomID op) ↔
  u = User_ID (GetUser h (Op_Client op)) ∨ u ∈ members h (Op_RoomID op).
Proof.
  rewrite members_handleJoinRoom. cbv zeta. rewrite decide_True by done.
  rewrite members_leaveCurrent, elem_of_union, elem_of_singleton.
  case_decide; [|done]. rewrite elem_of_difference, elem_of_singleton.
  destruct (decide (u = User_ID (GetUser h (Op_Client op)))); tauto.
Qed.
End moving.







(** X13: a join of an id no room has provisions the room on the spot: the
    room is created under that id, named by it, with an empty history and
    the joining user as its only member, and the directory lists it with a
    user count of 1. *)
Theorem join_provisions_room (sl sj : Stamp) (op : RoomOperation) (h : Hub) :
  rooms h !! Op_RoomID op = None →
  let R := Op_RoomID op in
  let h' := handleJoinRoom sl sj op h in
  rooms h' !! R =
    Some {| Room_ID := R; Room_Name := R;
            Room_Users := {[User_ID (GetUser h (Op_Client op))]};
            Room_Messages := [] |} ∧
  {| entry_id := R; entry_name := R; entry_user_count := 1 |} ∈ listRooms h'.
Proof.
  intros Hr R h'.
  assert (rooms h' !! R =
    Some {| Room_ID := R; Room_Name := R;
            Room_Users := {[User_ID (GetUser h (Op_Client op))]};
            Room_Messages := [] |}) as Hnew.
  { subst h'. rewrite rooms_handleJoinRoom. cbv zeta. fold R.
    rewrite lookup_insert_eq, lookup_rooms_leaveCurrent. unfold R. rewrite Hr.
    destruct (decide _); cbn; unfold AddUser, NewRoom; cbn;
      by rewrite (right_id_L ∅ (∪)). }
  split; [done|].
  unfold listRooms, GetRooms. apply list_elem_of_fmap.
  eexists (R, _). split; [|by apply elem_of_map_to_list]. cbn.
  by rewrite size_singleton.
Qed.

Lemma join_provisions_room_witness :
  {| entry_id := "lobby"; entry_name := "lobby"; entry_user_count := 1 |}
  ∈ listRooms (handleJoinRoom (stamp 9) (stamp 10) (mkRoomOperation 1 "lobby")
                 both_in_general).
Proof.
  apply (join_provisions_room (stamp 9) (stamp 10) (mkRoomOperation 1 "lobby")
           both_in_general).
  vm_compute. reflexivity.
Defined.

(** *** What a member has been handed *)

Section caught_up.
Variables (c : Client) (uid R : string).
Local Abbreviation caught := (caught_up c uid R).

Lemma step_caught_up h r : chatter r → caught h → caught (step h r).
Proof.
  intros Hr (Hwf & Hu & Hm & Hs).
  assert (∃ room, rooms h !! R = Some room ∧ uid ∈ Room_Users room) as (room & Hroom & Hin).
  { unfold members in Hm. destruct (rooms h !! R) as [room|]; [by eexists|].
    by apply elem_of_empty in Hm. }
  destruct (step_room h r R room Hroom) as (room' & Hroom' & _ & _ & Hmsgs).
  assert (history (step h r) R = history h R ++ broadcasts_to R [r]) as Hhist.
  { unfold history. by rewrite Hroom', Hroom. }
  destruct r as [| |m|pm| |]; try done; cbn [step] in *.
  - destruct (broadcastMessage_tables m h) as [_ Hut].
    split_and!.
    + by apply (step_handles_wf h (ReqBroadcast m)).
    + by rewrite Hut.
    + by rewrite members_broadcastMessage.
    + rewrite Hhist. unfold broadcasts_to. cbn.
      destruct (decide (Message_Room m = R ∧ R ≠ "")) as [[<- Hne]|Hno].
      * rewrite (sent_broadcastMessage m h room c Hroom Hne).
        rewrite (copies_member h c _ uid Hwf Hin Hu). by apply sublist_app.
      * rewrite app_nil_r.
        destruct (step_sent_prefix h (ReqBroadcast m) c) as [k Hk].
        cbn [step] in Hk. rewrite Hk. by apply sublist_inserts_r.
  - split_and!.
    + by apply (step_handles_wf h (ReqSendToUser pm)).
    + unfold sendPrivateMessage. by destruct (userClients h !! PM_UserID pm).
    + unfold sendPrivateMessage. by destruct (userClients h !! PM_UserID pm).
    + rewrite Hhist. cbn. rewrite app_nil_r.
      destruct (step_sent_prefix h (ReqSendToUser pm) c) as [k Hk].
      cbn [step] in Hk. rewrite Hk. by apply sublist_inserts_r.
Qed.

Lemma serve_caught_up rs h : Forall chatter rs → caught h → caught (serve h rs).
Proof.
  revert h. induction rs as [|r rs IH]; intros h Hrs Hc; [done|].
  apply Forall_cons in Hrs as [Hr Hrs]. cbn. by apply IH, step_caught_up.
Qed.

Lemma joined_caught_up sl sj h :
  handles_wf h → userClients h !! uid = Some c →
  caught (handleJoinRoom sl sj (mkRoomOperation c R) h).
Proof.
  intros Hwf Hu. assert (User_ID (GetUser h c) = uid) as Hid by (by apply Hwf).
  split_and!.
  - by apply (step_handles_wf h (ReqJoinRoom (mkRoomOperation c R) sl sj)).
  - by destruct (handleJoinRoom_tables sl sj (mkRoomOperation c R) h) as [_ ->].
  - apply (elem_of_members_joined sl sj (mkRoomOperation c R) h uid). by left.
  - rewrite history_handleJoinRoom.
    rewrite (sent_handleJoinRoom_exact sl sj (mkRoomOperation c R) h c). cbv zeta.
    cbn [Op_Client Op_RoomID]. rewrite (decide_True (P := c = c)) by done.
    rewrite !app_assoc. by apply sublist_inserts_l.
Qed.

Lemma caught_up_sublist h : caught h → history h R `sublist_of` sent h c.
Proof. by intros (_ & _ & _ & ?). Qed.
End caught_up.

(** X14: a member misses nothing of its room: after a routed client has
    joined a room, and through any further broadcasts and private
    messages, the whole history of the room, in order, is among what the
    client has been sent. *)
Theorem member_has_whole_history (sl sj : Stamp) (c : Client) (R : string)
    (h : Hub) (rs : list Request) :
  handles_wf h → userClients h !! User_ID (GetUser h c) = Some c →
  Forall chatter rs →
  let h' := serve (handleJoinRoom sl sj (mkRoomOperation c R) h) rs in
  history h' R `sublist_of` sent h' c.
Proof.
  intros Hwf Hu Hrs h'.
  apply (caught_up_sublist c (User_ID (GetUser h c)) R).
  apply serve_caught_up; [done|]. by apply joined_caught_up.
Qed.

Lemma member_has_whole_history_witness :
  let h' := serve (handleJoinRoom (stamp 7) (stamp 8) (mkRoomOperation 2 "general")
                     hi_before_bob)
              [ReqSendToUser (mkPrivateMessage "bob" whisper); ReqBroadcast hello] in
  history h' "general" = [hi; hello] ∧ history h' "general" `sublist_of` sent h' 2.
Proof.
  split; [vm_compute; reflexivity|].
  apply (member_has_whole_history (stamp 7) (stamp 8) 2 "general" hi_before_bob
           [ReqSendToUser (mkPrivateMessage "bob" whisper); ReqBroadcast hello]).
  - apply (bool_decide_unpack (handles_wf hi_before_bob)). vm_compute. exact I.
  - vm_compute. reflexivity.
  - repeat constructor.
Defined.

End ChatHubMore.

(** ** Part VI: further properties of the signaling Relay *)

Module RelayMore.
Import Relay RelayTheory.

Section relay_steps.
Implicit Types (h : Hub) (c : Client) (msg : Message) (rs : list Request).

(** A forward to a registered peer whose channel is open and whose payload
    marshals, in closed form. *)
Lemma Broadcast_open msg h to :
  clients h !! To msg = Some to → chan_closed (Send_of h to) = false →
  marshals (GoRawMessage (Data msg)) = true →
  Broadcast msg h =
  Ok (if decide (length (chan_buf (Send_of h to)) < chan_cap (Send_of h to))
      then with_Send to (mkChan (chan_buf (Send_of h to) ++ [envelope msg])
                                (chan_cap (Send_of h to)) false) h
      else h).
Proof.
  intros Hto Hopen Hm. unfold Broadcast. rewrite Hto, json_Marshal_fullMsg, Hm.
  unfold try_send. rewrite Hopen. by case_decide.
Qed.

(** One request of a disciplined run, served in a state whose table
    entries and named clients are open. *)
Lemma step_safe h r rs :
  table_open h → all_open h (named (r :: rs)) → disciplined (r :: rs) →
  ∃ h', step h r = Ok h' ∧ table_open h' ∧ all_open h' (named rs).
Proof.
  intros Ht Ho [Hr Hd].
  assert (∀ c, c ∈ named (r :: rs) → chan_closed (Send_of h c) = false) as Hopen.
  { intros c Hc. unfold all_open in Ho. rewrite Forall_forall in Ho. by apply Ho. }
  destruct r as [c|c|msg]; cbn [step].
  - eexists. split; [done|]. split.
    + intros id c' Hid. cbn in Hid.
      apply lookup_insert_Some in Hid as [[<- <-]|[_ Hid]].
      * split; [done|]. apply Hopen. cbn. by left.
      * by apply Ht.
    + apply Forall_forall. intros c' Hc'. apply Hopen. by apply named_cons.
  - destruct (clients h !! ID_of h c) as [c0|] eqn:Hl.
    + assert (chan_closed (Send_of h c) = false) as Hc by (apply Hopen; cbn; by left).
      destruct (Unregister_present c h c0 Hl Hc) as (h' & -> & Htab & Hid & Hsend).
      exists h'. split; [done|]. split.
      * intros id c' Hl'. rewrite Htab in Hl'.
        apply lookup_delete_Some in Hl' as [Hne Hl'].
        destruct (Ht id c' Hl') as [Hid' Hop']. rewrite Hid, Hsend.
        split; [done|]. rewrite decide_False; [done|]. intros ->. congruence.
      * apply Forall_forall. intros c' Hc'. rewrite Hsend.
        rewrite decide_False; [apply Hopen; by apply named_cons|].
        intros ->. by apply Hr.
    + rewrite (Unregister_absent c h Hl). exists h. split; [done|]. split; [done|].
      apply Forall_forall. intros c' Hc'. apply Hopen. by apply named_cons.
  - destruct (Broadcast_safe msg h) as (h' & -> & Htab & Hid & Hcl & _).
    { intros to Hto. by apply Ht in Hto as [_ ?]. }
    exists h'. split; [done|]. split.
    + intros id c' Hl'. rewrite Htab in Hl'. rewrite Hid, Hcl. by apply Ht.
    + apply Forall_forall. intros c' Hc'. rewrite Hcl. by apply Hopen.
Qed.

Lemma Send_of_bounded h c :
  queues_bounded h → (length (chan_buf (Send_of h c)) ≤ chan_cap (Send_of h c))%nat.
Proof.
  intros Hb. unfold Send_of. rewrite lookup_total_alt.
  destruct (heap h !! c) as [o|] eqn:Ho; cbn; [by apply (Hb c o)|lia].
Qed.

Lemma step_bounded h r h' :
  queues_bounded h → step h r = Ok h' → queues_bounded h'.
Proof.
  intros Hb Hs. destruct r as [c|c|msg]; cbn [step] in Hs.
  - injection Hs as <-. done.
  - unfold Unregister in Hs. destruct (clients h !! ID_of h c); [|by injection Hs as <-].
    unfold close_Send in Hs. cbn in Hs.
    change (Send_of {| clients := delete (ID_of h c) (clients h); heap := heap h |} c)
      with (Send_of h c) in Hs.
    destruct (chan_closed (Send_of h c)); [done|]. injection Hs as <-.
    apply map_Forall_insert_2; [|done]. cbn. by apply Send_of_bounded.
  - unfold Broadcast in Hs. destruct (clients h !! To msg) as [to|]; [|by injection Hs as <-].
    destruct (json_Marshal (fullMsg msg)) as [text|]; [|by injection Hs as <-].
    unfold try_send in Hs. destruct (chan_closed (Send_of h to)); [done|].
    case_decide as Hroom; injection Hs as <-; [|done].
    apply map_Forall_insert_2; [|done]. cbn. rewrite length_app. cbn. lia.
Qed.
End relay_steps.

Lemma Run_safe (rs : list Request) (h : Hub) :
  table_open h → all_open h (named rs) → disciplined rs →
  ∃ h', Run h rs = Ok h' ∧ table_open h'.
Proof.
  revert h. induction rs as [|r rs IH]; intros h Ht Ho Hd.
  { by exists h. }
  destruct (step_safe h r rs Ht Ho Hd) as (h1 & Hs & Ht1 & Ho1).
  destruct Hd as [_ Hd]. destruct (IH h1 Ht1 Ho1 Hd) as (h' & Hr & Ht').
  exists h'. cbn [Run]. by rewrite Hs.
Qed.

Section connections.
Implicit Types (c : Client) (msgs : list Message) (rs : list Request).

Lemma named_forwards msgs rs : named ((ReqBroadcast <$> msgs) ++ rs) = named rs.
Proof. induction msgs as [|m msgs IH]; [done|]. exact IH. Qed.

Lemma named_connection c msgs rs :
  named (connection c msgs ++ rs) = c :: c :: named rs.
Proof.
  unfold connection. cbn. f_equal. by rewrite <-app_assoc, named_forwards.
Qed.

Lemma disciplined_forwards msgs rs :
  disciplined rs → disciplined ((ReqBroadcast <$> msgs) ++ rs).
Proof. intros Hrs. induction msgs as [|m msgs IH]; [done|]. by split. Qed.

Lemma disciplined_connection c msgs rs :
  c ∉ named rs → disciplined rs → disciplined (connection c msgs ++ rs).
Proof.
  intros Hc Hrs. unfold connection. split; [done|].
  rewrite <-app_assoc. apply disciplined_forwards. by split.
Qed.

Lemma named_sessions (conns : list (Client * list Message)) c :
  c ∈ named (sessions conns) → c ∈ conns.*1.
Proof.
  induction conns as [|[c0 msgs] conns IH]; [done|].
  unfold sessions. cbn [fmap list_fmap concat fst snd].
  rewrite named_connection. intros Hc.
  apply elem_of_cons in Hc as [->|Hc]; [by left|].
  apply elem_of_cons in Hc as [->|Hc]; [by left|]. right. by apply IH.
Qed.

Lemma disciplined_sessions (conns : list (Client * list Message)) :
  NoDup conns.*1 → disciplined (sessions conns).
Proof.
  induction conns as [|[c0 msgs] conns IH]; [done|].
  intros Hnd. apply NoDup_cons in Hnd as [Hc0 Hnd].
  apply (disciplined_connection c0 msgs (sessions conns)); [|by apply IH].
  intros Hin. by apply Hc0, named_sessions.
Qed.
End connections.

(** X17: the Relay does not panic on the runs the transport produces.  In
    a run that names no client again once it has unregistered it, started
    with every table entry and every named client on an open channel, no
    channel is closed twice and nothing is sent on a closed channel: the
    run ends in a state, and every client still in the table has an open
    channel. *)
Theorem relay_never_panics (rs : list Request) (h : Hub) :
  table_open h → all_open h (named rs) → disciplined rs →
  ∃ h', Run h rs = Ok h' ∧ table_open h'.
Proof. apply Run_safe. Qed.

Lemma relay_never_panics_witness :
  table_open peers ∧ all_open peers (named three_connections) ∧
  disciplined three_connections ∧
  ∃ h', Run peers three_connections = Ok h' ∧ table_open h'.
Proof.
  assert (table_open peers) as Ht.
  { apply (bool_decide_unpack (table_open peers)). vm_compute. exact I. }
  assert (all_open peers (named three_connections)) as Ho.
  { apply (bool_decide_unpack (all_open peers (named three_connections))).
    vm_compute. exact I. }
  assert (disciplined three_connections) as Hd.
  { apply (bool_decide_unpack (disciplined three_connections)). vm_compute. exact I. }
  split_and!; [exact Ht | exact Ho | exact Hd |].
  exact (relay_never_panics three_connections peers Ht Ho Hd).
Defined.

(** X18: connections served one after the other, each with a client of
    its own on an open channel, never panic the Relay, whatever they
    forward and whatever ids they share. *)
Theorem connections_never_panic (conns : list (Client * list Message)) (h : Hub) :
  NoDup conns.*1 → table_open h → all_open h conns.*1 →
  ∃ h', Run h (sessions conns) = Ok h' ∧ table_open h'.
Proof.
  intros Hnd Ht Ho. apply Run_safe; [done| |by apply disciplined_sessions].
  apply Forall_forall. intros c Hc. unfold all_open in Ho.
  rewrite Forall_forall in Ho. by apply Ho, named_sessions.
Qed.

Lemma connections_never_panic_witness :
  ∃ h', Run peers (sessions [(1, [offer; truncated]); (3, [ice]); (2, [])]) = Ok h' ∧
        table_open h'.
Proof.
  apply (connections_never_panic [(1, [offer; truncated]); (3, [ice]); (2, [])] peers).
  - apply (bool_decide_unpack _). vm_compute. exact I.
  - apply (bool_decide_unpack (table_open peers)). vm_compute. exact I.
  - apply (bool_decide_unpack (all_open peers [1; 3; 2])). vm_compute. exact I.
Defined.

(** X19: a queue never holds more than its capacity: if no queue does
    before a run, none does after it. *)
Theorem queues_stay_bounded (rs : list Request) (h h' : Hub) :
  queues_bounded h → Run h rs = Ok h' → queues_bounded h'.
Proof.
  revert h. induction rs as [|r rs IH]; intros h Hb Hr; cbn [Run] in Hr.
  { by injection Hr as <-. }
  destruct (step h r) as [h1|] eqn:Hs; [|done].
  apply (IH h1); [|done]. by apply (step_bounded h r).
Qed.

Lemma queues_stay_bounded_witness :
  queues_bounded p2_saturated ∧
  ∃ h', Run p2_saturated [ReqBroadcast offer; ReqBroadcast ice] = Ok h' ∧
        queues_bounded h'.
Proof.
  assert (queues_bounded p2_saturated) as Hb.
  { apply (bool_decide_unpack (queues_bounded p2_saturated)). vm_compute. exact I. }
  split; [exact Hb|]. eexists. split; [vm_compute; reflexivity|].
  apply (queues_stay_bounded [ReqBroadcast offer; ReqBroadcast ice] p2_saturated _ Hb).
  vm_compute. reflexivity.
Defined.

(** X20: forwards to one peer are queued in arrival order and, when the
    queue is full, it is the newest that are dropped: after a run of
    forwards to a registered peer with an open channel, payloads all
    marshalling, the queue is the old queue followed by the envelopes in
    order, cut at the capacity; no other queue changes. *)
Theorem forwards_fifo_drop_newest (msgs : list Message) (h : Hub) (to : Client) :
  chan_closed (Send_of h to) = false →
  (length (chan_buf (Send_of h to)) ≤ chan_cap (Send_of h to))%nat →
  Forall (λ msg, clients h !! To msg = Some to ∧
                 marshals (GoRawMessage (Data msg)) = true) msgs →
  ∃ h', Run h (ReqBroadcast <$> msgs) = Ok h' ∧ clients h' = clients h ∧
        chan_buf (Send_of h' to) =
          take (chan_cap (Send_of h to)) (chan_buf (Send_of h to) ++ (envelope <$> msgs)) ∧
        chan_cap (Send_of h' to) = chan_cap (Send_of h to) ∧
        chan_closed (Send_of h' to) = false ∧
        (∀ c, c ≠ to → Send_of h' c = Send_of h c).
Proof.
  revert h. induction msgs as [|msg msgs IH]; intros h Hopen Hlen Hall.
  { exists h. cbn. rewrite app_nil_r, take_ge by done. by split_and!. }
  apply Forall_cons in Hall as [[Hto Hm] Hall]. cbn [fmap list_fmap Run step].
  rewrite (Broadcast_open msg h to Hto Hopen Hm).
  case_decide as Hroom.
  - set (h1 := with_Send to (mkChan (chan_buf (Send_of h to) ++ [envelope msg])
                                    (chan_cap (Send_of h to)) false) h).
    assert (Send_of h1 to = mkChan (chan_buf (Send_of h to) ++ [envelope msg])
                                   (chan_cap (Send_of h to)) false) as Hs1.
    { unfold h1. by rewrite Send_of_with_Send, decide_True. }
    destruct (IH h1) as (h' & Hr & Ht & Hb & Hc & Hcl & Hoth).
    + by rewrite Hs1.
    + rewrite Hs1. cbn. rewrite length_app. cbn. lia.
    + eapply Forall_impl; [exact Hall|]. by intros m [? ?].
    + exists h'. split; [done|]. rewrite Hs1 in Hb, Hc. cbn in Hb, Hc.
      split_and!; [done| |done..|].
      * by rewrite Hb, <-app_assoc.
      * intros c Hne. rewrite (Hoth c Hne). unfold h1.
        by rewrite Send_of_with_Send, decide_False.
  - destruct (IH h Hopen Hlen Hall) as (h' & Hr & Ht & Hb & Hc & Hcl & Hoth).
    exists h'. split; [done|]. split_and!; [done| |done..].
    rewrite Hb. rewrite !take_app_le by lia. done.
Qed.

Lemma forwards_fifo_drop_newest_witness :
  ∃ h', Run p2_saturated (ReqBroadcast <$> [ice; offer]) = Ok h' ∧
        chan_buf (Send_of h' 2) = [envelope offer].
Proof.
  destruct (forwards_fifo_drop_newest [ice; offer] p2_saturated 2)
    as (h' & Hr & _ & Hb & _).
  - reflexivity.
  - vm_compute. lia.
  - repeat constructor.
  - exists h'. split; [exact Hr|]. rewrite Hb. vm_compute. reflexivity.
Defined.

(** X21: registration is last-register-wins and unregistration is by id:
    a client that registers and then unregisters leaves nobody registered
    under its id, also when another client was registered under that id
    before; its own channel ends closed with its queue as it was, and no
    other channel is touched. *)
Theorem register_then_unregister (c : Client) (h : Hub) :
  chan_closed (Send_of h c) = false →
  ∃ h', Run h [ReqRegister c; ReqUnregister c] = Ok h' ∧
        clients h' = delete (ID_of h c) (clients h) ∧
        Send_of h' c = mkChan (chan_buf (Send_of h c)) (chan_cap (Send_of h c)) true ∧
        (∀ c', c' ≠ c → Send_of h' c' = Send_of h c').
Proof.
  intros Hopen. cbn [Run step]. unfold Register.
  set (h1 := {| clients := <[ID_of h c := c]> (clients h); heap := heap h |}).
  destruct (Unregister_present c h1 c) as (h' & -> & Ht & _ & Hs).
  { apply lookup_insert_eq. }
  { done. }
  exists h'. split; [done|]. split_and!.
  - rewrite Ht. unfold h1; cbn. apply delete_insert_eq.
  - by rewrite Hs, decide_True.
  - intros c' Hne. by rewrite Hs, decide_False.
Qed.

Lemma register_then_unregister_witness :
  ∃ h', Run both_registered [ReqRegister 3; ReqUnregister 3] = Ok h' ∧
        clients h' !! "p1" = None ∧ chan_closed (Send_of h' 1) = false.
Proof.
  destruct (register_then_unregister 3 both_registered) as (h' & Hr & Ht & _ & Hoth).
  - reflexivity.
  - exists h'. split; [exact Hr|]. split.
    + rewrite Ht. vm_compute. reflexivity.
    + rewrite (Hoth 1); [reflexivity|discriminate].
Defined.

(** X22: once a registered client has been unregistered, a forward
    addressed to its id is dropped: it changes nothing and, the channel
    being closed by then, nothing is sent on it. *)
Theorem forward_after_unregister_dropped (c c0 : Client) (msg : Message) (h : Hub) :
  clients h !! ID_of h c = Some c0 → chan_closed (Send_of h c) = false →
  To msg = ID_of h c →
  ∃ h', Unregister c h = Ok h' ∧
        Run h [ReqUnregister c; ReqBroadcast msg] = Ok h' ∧
        clients h' !! To msg = None ∧ chan_closed (Send_of h' c) = true.
Proof.
  intros Hl Hopen Hto.
  destruct (Unregister_present c h c0 Hl Hopen) as (h' & Hu & Ht & _ & Hs).
  assert (clients h' !! To msg = None) as Hgone.
  { rewrite Ht, Hto. apply lookup_delete_eq. }
  exists h'. split; [done|]. split_and!.
  - cbn [Run step]. rewrite Hu. unfold Broadcast. by rewrite Hgone.
  - done.
  - by rewrite Hs, decide_True.
Qed.

Lemma forward_after_unregister_dropped_witness :
  ∃ h', Run both_registered [ReqUnregister 2; ReqBroadcast ice] = Ok h' ∧
        chan_closed (Send_of h' 2) = true.
Proof.
  destruct (forward_after_unregister_dropped 2 2 ice both_registered)
    as (h' & _ & Hr & _ & Hc).
  - vm_compute. reflexivity.
  - reflexivity.
  - reflexivity.
  - exists h'. split; [exact Hr|exact Hc].
Defined.

(** X23: a forward goes to the latest registrant of an id: after a client
    with an open channel and room in its queue has registered, a forward
    addressed to its id, with a payload that marshals, is queued on its
    channel and on no other, not even on the channel of a client that was
    registered under the id before. *)
Theorem forward_reaches_latest_registrant (c : Client) (msg : Message) (h : Hub) :
  chan_closed (Send_of h c) = false →
  (length (chan_buf (Send_of h c)) < chan_cap (Send_of h c))%nat →
  To msg = ID_of h c → marshals (GoRawMessage (Data msg)) = true →
  ∃ h', Run h [ReqRegister c; ReqBroadcast msg] = Ok h' ∧
        clients h' !! To msg = Some c ∧
        chan_buf (Send_of h' c) = chan_buf (Send_of h c) ++ [envelope msg] ∧
        (∀ c', c' ≠ c → Send_of h' c' = Send_of h c').
Proof.
  intros Hopen Hroom Hto Hm. cbn [Run step]. unfold Register.
  set (h1 := {| clients := <[ID_of h c := c]> (clients h); heap := heap h |}).
  assert (clients h1 !! To msg = Some c) as Hl.
  { unfold h1; cbn. rewrite Hto. apply lookup_insert_eq. }
  rewrite (Broadcast_open msg h1 c Hl Hopen Hm).
  change (Send_of h1 c) with (Send_of h c). rewrite decide_True by done.
  eexists. split; [done|]. split_and!.
  - done.
  - by rewrite Send_of_with_Send, decide_True.
  - intros c' Hne. by rewrite Send_of_with_Send, decide_False.
Qed.

Lemma forward_reaches_latest_registrant_witness :
  ∃ h', Run both_registered
          [ReqRegister 3; ReqBroadcast (mkMessage "p2" "p1" AnswerMsg None)] = Ok h' ∧
        chan_buf (Send_of h' 3) = [envelope (mkMessage "p2" "p1" AnswerMsg None)] ∧
        chan_buf (Send_of h' 1) = [].
Proof.
  destruct (forward_reaches_latest_registrant 3 (mkMessage "p2" "p1" AnswerMsg None)
              both_registered) as (h' & Hr & _ & Hb & Hoth).
  - reflexivity.
  - vm_compute. lia.
  - reflexivity.
  - reflexivity.
  - exists h'. split; [exact Hr|]. split; [by rewrite Hb|].
    rewrite (Hoth 1); [reflexivity|discriminate].
Defined.

End RelayMore.
